(** * VkApiAgent: error classification and the retry loop of [pract_2/vkapi.py]

    A shallow embedding of the class [VkApiAgent]: the two response hooks
    ([_handle_execute_errors], [_handle_api_errors]), the dispatch loop
    ([_retry_wrapper]) and the three domain methods ([execute],
    [get_users_ids], [get_friends]).

    Conventions of the embedding.
    - A Python exception is a value of [exn]; a computation that may raise
      has type [result A].
    - A decoded JSON body is a [json] value; a JSON number is an integer
      (the error codes and ids of the API are integers).
    - [api_errors], the table read from [api_errors.yaml], is a finite map
      from integer codes to rules.
    - The transport is the list of raw responses that the successive
      [s.get] calls receive; the loop that has used all of them and asks for
      one more is [Pending].
    - The waits are rationals, [backoff_factor * 2 ** retries] computed
      exactly, and the sleeps of a run are collected in a list.
    - The loop comes twice.  [retry_loop] reads the loop with a transport
      that always answers and with the wait as a number: the product is
      exact and [time.sleep] looks at its sign.  [py_retry_loop] adds what
      the interpreter and the transport add: [s.get] may raise an exception
      of its own, the conversion of [2 ** retries] to a float fails from
      [2 ** 1024] on, and [time.sleep] refuses a length beyond its range.
      The two agree on every run that stays within these limits
      ([py_retry_loop_agrees]). *)

From Stdlib Require Import ZArith QArith String List Lia Bool.
From stdpp Require Import base option list strings gmap fin_maps.
Import ListNotations.

Local Open Scope Z_scope.
Local Open Scope string_scope.

(** ** Exceptions and results *)

Inductive exn : Type :=
| KeyError
| TypeError
| AttributeError
| NameError
| ValueError
| JSONDecodeError
| OverflowError
| RequestException (name : string) (* a requests exception other than HTTPError *)
| AssertionError (msg : string)
| HTTPError (status : Z)
| SystemExit                       (* [raise SystemExit] *)
| SystemExitMsg (msg : string)     (* [raise SystemExit("...")] *)
| SystemExitErr (status : Z).      (* [raise SystemExit(err)], [err] an HTTPError *)

Inductive result (A : Type) : Type :=
| Ok (a : A)
| Raise (e : exn).
Arguments Ok {A} a.
Arguments Raise {A} e.

Definition bind {A B : Type} (m : result A) (k : A -> result B) : result B :=
  match m with
  | Ok a => k a
  | Raise e => Raise e
  end.

Notation "'let*' x ':=' m 'in' k" := (bind m (fun x => k))
  (at level 10, x pattern, m at level 100, k at level 200).

(** The elements of a comprehension are evaluated from left to right and the
    first exception leaves it. *)
Fixpoint mapM {A B : Type} (f : A -> result B) (l : list A) : result (list B) :=
  match l with
  | [] => Ok []
  | x :: l' => let* y := f x in let* ys := mapM f l' in Ok (y :: ys)
  end.

(** ** JSON values, as [r.json()] returns them *)

#[warnings="-register-all"]
Inductive json : Type :=
| JNull
| JBool (b : bool)
| JNum (n : Z)
| JStr (s : string)
| JArr (l : list json)
| JObj (kvs : list (string * json)).

Fixpoint assoc (k : string) (kvs : list (string * json)) : option json :=
  match kvs with
  | [] => None
  | (k', v) :: kvs' => if String.eqb k k' then Some v else assoc k kvs'
  end.

(** [v[k]] for a string key [k]: a dict without the key raises KeyError,
    anything that is not a dict raises TypeError. *)
Definition getitem (v : json) (k : string) : result json :=
  match v with
  | JObj kvs => match assoc k kvs with
                | Some x => Ok x
                | None => Raise KeyError
                end
  | _ => Raise TypeError
  end.

(** [for x in v]: a list gives its elements, a dict its keys, a string its
    characters; the other values are not iterable. *)
Definition iter (v : json) : result (list json) :=
  match v with
  | JArr l => Ok l
  | JObj kvs => Ok (map (fun kv => JStr (fst kv)) kvs)
  | JStr s => Ok (map (fun c => JStr (String c EmptyString)) (list_ascii_of_string s))
  | _ => Raise TypeError
  end.

(** [len(v)] *)
Definition len (v : json) : result nat :=
  match v with
  | JArr l => Ok (List.length l)
  | JObj kvs => Ok (List.length kvs)
  | JStr s => Ok (String.length s)
  | _ => Raise TypeError
  end.

(** ** The error table *)

Record ErrorRule : Type := mkRule {
  action : string;
  MatchedHTTPError : Z
}.

(** The key under which a JSON value is looked up in a dict with integer
    keys: [True] and [False] hash and compare as 1 and 0, lists and dicts
    are unhashable, strings and [None] are hashable and never equal to an
    integer. *)
Inductive dict_key : Type :=
| IntKey (z : Z)
| NoKey
| Unhashable.

Definition key_of (v : json) : dict_key :=
  match v with
  | JNum z => IntKey z
  | JBool b => IntKey (if b then 1 else 0)
  | JNull | JStr _ => NoKey
  | JArr _ | JObj _ => Unhashable
  end.

(** [self.api_errors[code]] *)
Definition table_getitem (api_errors : gmap Z ErrorRule) (code : json) : result ErrorRule :=
  match key_of code with
  | IntKey z => match api_errors !! z with
                | Some rule => Ok rule
                | None => Raise KeyError
                end
  | NoKey => Raise KeyError
  | Unhashable => Raise TypeError
  end.

(** [code in self.api_errors] *)
Definition table_contains (api_errors : gmap Z ErrorRule) (code : json) : result bool :=
  match key_of code with
  | IntKey z => Ok (bool_decide (is_Some (api_errors !! z)))
  | NoKey => Ok false
  | Unhashable => Raise TypeError
  end.

(** [[self.api_errors[er]["MatchedHTTPError"] for er in self.api_errors
      if self.api_errors[er]["action"] == act]] *)
Definition statuses_of (api_errors : gmap Z ErrorRule) (act : string) : list Z :=
  map (fun kv => MatchedHTTPError (snd kv))
      (List.filter (fun kv => String.eqb (action (snd kv)) act) (map_to_list api_errors)).

Definition status_in (s : Z) (l : list Z) : bool := existsb (Z.eqb s) l.

(** ** Responses *)

Record response : Type := mkResponse {
  status_code : Z;
  reason : json;
  body : option json   (* [None]: the body is not JSON, [r.json()] raises *)
}.

Definition r_json (r : response) : result json :=
  match body r with
  | Some j => Ok j
  | None => Raise JSONDecodeError
  end.

(** [r.status_code = st; r.reason = msg] *)
Definition set_status (r : response) (st : Z) (msg : json) : response :=
  {| status_code := st; reason := msg; body := body r |}.

(** [r.raise_for_status()] *)
Definition raise_for_status (r : response) : result unit :=
  if Z.leb 400 (status_code r) && Z.ltb (status_code r) 600
  then Raise (HTTPError (status_code r))
  else Ok tt.

(** ** The hook [_handle_execute_errors]

    The three [for] loops of lines 36-53.  The first binds [err_code] and
    [err_msg]; the second and the third bind [error_code] and [error_msg]
    and read [err_code] and [err_msg], which still hold what the first loop
    left in them.  [cur] is that binding ([None]: not bound yet). *)

Definition pair := (json * json)%type.

(** Lines 36-41.  [inl r']: the loop returned [r']; [inr cur]: the loop ran
    to its end and left [cur] in [err_code], [err_msg]. *)
Fixpoint scan_break (api_errors : gmap Z ErrorRule) (r : response)
    (err_pairs : list pair) (cur : option pair) : result (response + option pair) :=
  match err_pairs with
  | [] => Ok (inr cur)
  | (err_code, err_msg) :: rest =>
      let* rule := table_getitem api_errors err_code in
      if String.eqb (action rule) "break"
      then Ok (inl (set_status r (MatchedHTTPError rule) err_msg))
      else scan_break api_errors r rest (Some (err_code, err_msg))
  end.

(** Lines 42-47 with [act] = "retry" and lines 48-53 with [act] = "skip":
    the body does not read the loop's own variables.  [None]: the loop ran
    to its end. *)
Fixpoint scan_stale (api_errors : gmap Z ErrorRule) (r : response) (act : string)
    (err_pairs : list pair) (cur : option pair) : result (option response) :=
  match err_pairs with
  | [] => Ok None
  | (_error_code, _error_msg) :: rest =>
      match cur with
      | None => Raise NameError
      | Some (err_code, err_msg) =>
          let* rule := table_getitem api_errors err_code in
          if String.eqb (action rule) act
          then Ok (Some (set_status r (MatchedHTTPError rule) err_msg))
          else scan_stale api_errors r act rest cur
      end
  end.

(** One element of the comprehension of line 32. *)
Definition entry_of (err : json) : result pair :=
  let* c := getitem err "error_code" in
  let* m := getitem err "error_msg" in
  Ok (c, m).

(** The body of the [try], lines 31-54. *)
Definition execute_errors_body (api_errors : gmap Z ErrorRule) (r : response)
    : result response :=
  let* j := r_json r in
  let* errors := getitem j "execute_errors" in
  let* errs := iter errors in
  let* err_pairs := mapM entry_of errs in
  let* _actions :=
    mapM (fun p : pair => let* rule := table_getitem api_errors (fst p) in
                          Ok (action rule)) err_pairs in
  let* _http_errors :=
    mapM (fun p : pair => let* rule := table_getitem api_errors (fst p) in
                          Ok (MatchedHTTPError rule)) err_pairs in
  let* b := scan_break api_errors r err_pairs None in
  match b with
  | inl r' => Ok r'
  | inr cur =>
      let* t := scan_stale api_errors r "retry" err_pairs cur in
      match t with
      | Some r' => Ok r'
      | None =>
          let* s := scan_stale api_errors r "skip" err_pairs cur in
          match s with
          | Some r' => Ok r'
          | None => Raise (AssertionError "Unexpected error")
          end
      end
  end.

(** [try: ... except KeyError as e: return r] *)
Definition _handle_execute_errors (api_errors : gmap Z ErrorRule) (r : response)
    : result response :=
  match execute_errors_body api_errors r with
  | Raise KeyError => Ok r
  | other => other
  end.

(** ** The hook [_handle_api_errors] *)

(** The body of the [try], lines 62-69. *)
Definition api_errors_body (api_errors : gmap Z ErrorRule) (r : response)
    : result response :=
  let* j := r_json r in
  let* e := getitem j "error" in
  let* err_code := getitem e "error_code" in
  let* j' := r_json r in
  let* e' := getitem j' "error" in
  let* err_msg := getitem e' "error_msg" in
  let* known := table_contains api_errors err_code in
  if negb known
  then Raise (AssertionError "Unexpected err_code")
  else
    let* rule := table_getitem api_errors err_code in
    Ok (set_status r (MatchedHTTPError rule) err_msg).

(** [except (AttributeError, KeyError): pass] and then [finally: return r]:
    the [return] of the [finally] clause ends the call with [r] whatever
    the [try] raised.  [r] has its new status only when the body reached
    its end, the two assignments being its last statements. *)
Definition _handle_api_errors (api_errors : gmap Z ErrorRule) (r : response)
    : result response :=
  match api_errors_body api_errors r with
  | Ok r' => Ok r'
  | Raise _ => Ok r
  end.

(** The session runs its response hooks in the order of registration
    (lines 26-27), each on what the one before returned: this is what
    [s.get] gives for the raw response [raw]. *)
Definition session_get (api_errors : gmap Z ErrorRule) (raw : response)
    : result response :=
  let* r1 := _handle_execute_errors api_errors raw in
  _handle_api_errors api_errors r1.

(** ** The dispatch loop [_retry_wrapper] *)

(** [backoff_factor * (2 ** (retries))] as a number, the exact product;
    [py_backoff] below adds the conversion of [2 ** retries] to a float. *)
Definition backoff (backoff_factor : Q) (retries : nat) : Q :=
  (backoff_factor * inject_Z (2 ^ Z.of_nat retries))%Q.

(** [time.sleep(wait)] refuses a negative length; [py_time_sleep] below
    adds the range of the length. *)
Definition time_sleep (wait : Q) : result unit :=
  if Qlt_le_dec wait 0 then Raise ValueError else Ok tt.

(** What a run of the loop over the responses of the transport comes to:
    it returned or raised ([Done]), or it used every response given and is
    at [s.get] again ([Pending], with the value of [retries]). *)
Inductive outcome (A : Type) : Type :=
| Done (x : result A)
| Pending (retries : nat).
Arguments Done {A} x.
Arguments Pending {A} retries.

(** A run: how it ended, the waits slept in order, and the number of
    [s.get] calls made. *)
Record run : Type := mkRun {
  ended : outcome (option response);
  sleeps : list Q;
  attempts : nat
}.

Definition slept (w : Q) (k : run) : run :=
  {| ended := ended k; sleeps := w :: sleeps k; attempts := S (attempts k) |}.

Definition stop (x : result (option response)) : run :=
  {| ended := Done x; sleeps := []; attempts := 1 |}.

(** The [while not success] loop, lines 141-162, and lines 163-164 after
    it; [retries] is the local variable at the head of the iteration. *)
Fixpoint retry_loop (api_errors : gmap Z ErrorRule) (backoff_factor : Q)
    (retries : nat) (transport : list response) : run :=
  match transport with
  | [] => {| ended := Pending retries; sleeps := []; attempts := 0 |}
  | raw :: rest =>
      match session_get api_errors raw with
      | Raise e => stop (Raise e)
      | Ok r =>
          match raise_for_status r with
          | Ok _ =>
              (* success = True; logger.debug(r.json()); return r *)
              stop (let* _ := r_json r in Ok (Some r))
          | Raise (HTTPError st) =>
              let retries := S retries in
              if status_in st (statuses_of api_errors "skip") then
                stop (Ok None)
              else if status_in st (statuses_of api_errors "break") then
                stop (Raise SystemExit)
              else if status_in st (statuses_of api_errors "retry") then
                let wait := backoff backoff_factor retries in
                match time_sleep wait with
                | Raise e => stop (Raise e)
                | Ok _ => slept wait (retry_loop api_errors backoff_factor retries rest)
                end
              else stop (Raise (SystemExitErr st))
          | Raise e => stop (Raise e)
          end
      end
  end.

Definition _retry_wrapper (api_errors : gmap Z ErrorRule) (backoff_factor : Q)
    (transport : list response) : run :=
  retry_loop api_errors backoff_factor 0 transport.

(** ** The domain methods

    Each one is the call of [_retry_wrapper] with [backoff_factor = 0.09]
    followed by the reading of the response; [after] is that second part. *)

Definition backoff_factor_0_09 : Q := 9 # 100.

Definition domain_method (after : option response -> result json)
    (api_errors : gmap Z ErrorRule) (transport : list response) : outcome json :=
  match ended (_retry_wrapper api_errors backoff_factor_0_09 transport) with
  | Done (Ok r) => Done (after r)
  | Done (Raise e) => Done (Raise e)
  | Pending n => Pending n
  end.

(** Lines 88-90. *)
Definition execute_after (r : option response) : result json :=
  match r with
  | None => Ok (JArr [])
  | Some r => let* j := r_json r in getitem j "response"
  end.

(** [except KeyError as e: ... raise SystemExit(msg) from e] *)
Definition exit_on_KeyError (msg : string) (m : result json) : result json :=
  match m with
  | Raise KeyError => Raise (SystemExitMsg msg)
  | other => other
  end.

(** Lines 103-111. *)
Definition get_users_ids_after (r : option response) : result json :=
  match r with
  | None => Ok (JArr [])
  | Some r =>
      exit_on_KeyError "Unexpected keys in response. `response` are Expected"
        (let* j := r_json r in
         let* friends := getitem j "response" in
         let* users := iter friends in
         let* friends_uids := mapM (fun user => getitem user "id") users in
         Ok (JArr friends_uids))
  end.

(** Lines 125-133. *)
Definition get_friends_after (r : option response) : result json :=
  match r with
  | None => Ok (JArr [])
  | Some r =>
      exit_on_KeyError "Unexpected keys in response. `response.items` are Expected"
        (let* j := r_json r in
         let* resp := getitem j "response" in
         let* friends := getitem resp "items" in
         let* _count := len friends in
         Ok friends)
  end.

Definition execute := domain_method execute_after.
Definition get_users_ids := domain_method get_users_ids_after.
Definition get_friends := domain_method get_friends_after.

(** ** Shapes of bodies and the policy of the specification *)

(** One entry of [execute_errors], or the object under [error]. *)
Definition err_obj (p : pair) : json :=
  JObj [("error_code", fst p); ("error_msg", snd p)].

(** The body of [r] is an object whose [execute_errors] is the list of the
    entries [err_pairs]. *)
Definition has_execute_errors (r : response) (err_pairs : list pair) : Prop :=
  exists kvs, body r = Some (JObj kvs) /\
              assoc "execute_errors" kvs = Some (JArr (map err_obj err_pairs)).

(** The body of [r] is an object whose [error] is the entry [p]. *)
Definition has_error (r : response) (p : pair) : Prop :=
  exists kvs, body r = Some (JObj kvs) /\ assoc "error" kvs = Some (err_obj p).

(** The body of [r] is an object with neither field. *)
Definition no_error_fields (r : response) : Prop :=
  exists kvs, body r = Some (JObj kvs) /\
              assoc "execute_errors" kvs = None /\ assoc "error" kvs = None.

(** The rule of the code of an entry, when the table has it. *)
Definition rule_of (api_errors : gmap Z ErrorRule) (p : pair) : option ErrorRule :=
  match table_getitem api_errors (fst p) with
  | Ok rule => Some rule
  | Raise _ => None
  end.

Definition has_action (api_errors : gmap Z ErrorRule) (act : string) (p : pair) : bool :=
  match rule_of api_errors p with
  | Some rule => String.eqb (action rule) act
  | None => false
  end.

(** The priority policy as the specification words it: the first entry
    whose action is Break; if none, the first Retry; if none, the first
    Skip.  The status and the reason it gives. *)
Definition first_with (api_errors : gmap Z ErrorRule) (act : string)
    (err_pairs : list pair) : option (Z * json) :=
  match List.find (has_action api_errors act) err_pairs with
  | Some p => match rule_of api_errors p with
              | Some rule => Some (MatchedHTTPError rule, snd p)
              | None => None
              end
  | None => None
  end.

Definition tiered_spec (api_errors : gmap Z ErrorRule) (err_pairs : list pair)
    : option (Z * json) :=
  match first_with api_errors "break" err_pairs with
  | Some x => Some x
  | None =>
      match first_with api_errors "retry" err_pairs with
      | Some x => Some x
      | None => first_with api_errors "skip" err_pairs
      end
  end.

(** The status [st] is the [MatchedHTTPError] of a rule of the table whose
    action is [act]. *)
Definition matches (api_errors : gmap Z ErrorRule) (act : string) (st : Z) : Prop :=
  exists code rule, api_errors !! code = Some rule /\
                    action rule = act /\ MatchedHTTPError rule = st.

(** The status is one on which [raise_for_status] raises. *)
Definition http_error (st : Z) : Prop := 400 <= st < 600.

(** Every code of the list is in the table. *)
Definition all_mapped (api_errors : gmap Z ErrorRule) (err_pairs : list pair) : Prop :=
  Forall (fun p => is_Some (rule_of api_errors p)) err_pairs.

(** No entry of the list has a Break rule. *)
Definition not_break (api_errors : gmap Z ErrorRule) (err_pairs : list pair) : Prop :=
  Forall (fun p => has_action api_errors "break" p = false) err_pairs.

(** The response is one that the loop answers with a wait and a new
    attempt: an HTTP error whose status a Retry rule has and no Skip or
    Break rule. *)
Definition retry_classified (api_errors : gmap Z ErrorRule) (raw : response) : Prop :=
  exists r, session_get api_errors raw = Ok r /\
            http_error (status_code r) /\
            matches api_errors "retry" (status_code r) /\
            ~ matches api_errors "skip" (status_code r) /\
            ~ matches api_errors "break" (status_code r).

(** The four ways in which the loop itself ends on a response. *)
Inductive exit_on (api_errors : gmap Z ErrorRule) (raw : response)
    : result (option response) -> Prop :=
| exit_success r :
    session_get api_errors raw = Ok r -> ~ http_error (status_code r) ->
    exit_on api_errors raw (Ok (Some r))
| exit_skip r :
    session_get api_errors raw = Ok r -> http_error (status_code r) ->
    matches api_errors "skip" (status_code r) ->
    exit_on api_errors raw (Ok None)
| exit_break r :
    session_get api_errors raw = Ok r -> http_error (status_code r) ->
    matches api_errors "break" (status_code r) ->
    exit_on api_errors raw (Raise SystemExit)
| exit_unclassified r :
    session_get api_errors raw = Ok r -> http_error (status_code r) ->
    ~ matches api_errors "skip" (status_code r) ->
    ~ matches api_errors "break" (status_code r) ->
    ~ matches api_errors "retry" (status_code r) ->
    exit_on api_errors raw (Raise (SystemExitErr (status_code r))).

(** The wait slept before the [n]-th retry, the retries being numbered from
    one as the variable [retries] numbers them. *)
Definition nth_sleep (k : run) (n : nat) : option Q :=
  match n with
  | O => None
  | S i => nth_error (sleeps k) i
  end.

(** [j[k1][k2]...] *)
Fixpoint get_path (j : json) (path : list string) : result json :=
  match path with
  | [] => Ok j
  | k :: ks => let* v := getitem j k in get_path v ks
  end.

(** [[user["id"] for user in j["response"]]] *)
Definition users_ids (j : json) : result (list json) :=
  let* friends := getitem j "response" in
  let* users := iter friends in
  mapM (fun user => getitem user "id") users.

(** ** Sample data: the tables and responses of the scenarios *)

Definition table_retry : gmap Z ErrorRule := {[ 100 := mkRule "retry" 503 ]}.
Definition table_skip : gmap Z ErrorRule := {[ 200 := mkRule "skip" 404 ]}.
Definition table_break : gmap Z ErrorRule := {[ 300 := mkRule "break" 400 ]}.
Definition table_all : gmap Z ErrorRule :=
  <[ 100 := mkRule "retry" 503 ]>
    (<[ 200 := mkRule "skip" 404 ]> {[ 300 := mkRule "break" 400 ]}).

(** An HTTP 200 answer with the given body. *)
Definition http_200 (j : json) : response :=
  {| status_code := 200; reason := JStr "OK"; body := Some j |}.

Definition execute_errors_response (err_pairs : list pair) : response :=
  http_200 (JObj [("execute_errors", JArr (map err_obj err_pairs))]).

Definition error_response (code : Z) (msg : string) : response :=
  http_200 (JObj [("error", err_obj (JNum code, JStr msg))]).

Definition friends_response (ids : list Z) : response :=
  http_200 (JObj [("response", JObj [("count", JNum (Z.of_nat (List.length ids)));
                                     ("items", JArr (map JNum ids))])]).

(** Two rules with different actions and the same HTTP status. *)
Definition table_overlap : gmap Z ErrorRule :=
  <[ 1 := mkRule "skip" 403 ]>
    (<[ 2 := mkRule "break" 403 ]>
       (<[ 3 := mkRule "retry" 403 ]>
          (<[ 4 := mkRule "break" 500 ]> {[ 5 := mkRule "retry" 500 ]}))).

(** An HTTP 200 answer whose body is not JSON. *)
Definition not_json_response : response :=
  {| status_code := 200; reason := JStr "OK"; body := None |}.

(** ** The request parameters of the domain methods

    The [params] dict of lines 78-83, 94-99 and 116-121 as a finite map
    (the order of the keys in the query string is left out).  In a dict
    display a later key replaces an earlier one, so the keys of [**kwargs]
    replace the fields written before them. *)

Inductive pyval : Type :=
| PStr (s : string)
| PInt (n : Z).

(** [",".join(map(str, screen_names))], for names that are strings. *)
Definition join_names (screen_names : list string) : string :=
  String.concat "," screen_names.

Definition execute_params (access_token code : string) : gmap string pyval :=
  <[ "v" := PStr "5.154" ]>
    (<[ "func_v" := PInt 1 ]>
       (<[ "code" := PStr code ]> {[ "access_token" := PStr access_token ]})).

Definition get_users_ids_params (access_token : string) (screen_names : list string)
    (kwargs : gmap string pyval) : gmap string pyval :=
  kwargs ∪ (<[ "v" := PStr "5.154" ]>
              (<[ "user_ids" := PStr (join_names screen_names) ]>
                 {[ "access_token" := PStr access_token ]})).

Definition get_friends_params (access_token : string) (uid : Z)
    (kwargs : gmap string pyval) : gmap string pyval :=
  kwargs ∪ (<[ "v" := PStr "5.154" ]>
              (<[ "user_id" := PInt uid ]>
                 {[ "access_token" := PStr access_token ]})).

(** ** Vocabulary of the further properties *)

(** The body of [raw] is an object without [execute_errors] whose [error]
    is the entry [p]. *)
Definition only_error (raw : response) (p : pair) : Prop :=
  exists kvs, body raw = Some (JObj kvs) /\
              assoc "execute_errors" kvs = None /\
              assoc "error" kvs = Some (err_obj p).


(** The time that a run spent in [time.sleep]. *)
Definition total_wait (k : run) : Q := fold_right Qplus 0%Q (sleeps k).

(** The exceptions that leave [_retry_wrapper]. *)
Definition loop_exn (e : exn) : Prop :=
  e = JSONDecodeError \/ e = TypeError \/ e = AssertionError "Unexpected error" \/
  e = ValueError \/ e = SystemExit \/
  exists st, e = SystemExitErr st /\ http_error st.

(** ** The loop with the limits of the interpreter and of the transport *)













(** * Properties *)

(** ** The table *)

Lemma status_in_matches (api_errors : gmap Z ErrorRule) (act : string) (st : Z) :
  status_in st (statuses_of api_errors act) = true <-> matches api_errors act st.
Proof.
  unfold status_in, statuses_of, matches.
  rewrite existsb_exists. split.
  - intros (x & Hin & Heq). apply Z.eqb_eq in Heq. subst x.
    apply in_map_iff in Hin as ((code & rule) & Hst & Hin).
    apply filter_In in Hin as (Hin & Hact). simpl in *.
    apply String.eqb_eq in Hact.
    apply list_elem_of_In, elem_of_map_to_list in Hin.
    exists code, rule. auto.
  - intros (code & rule & Hlk & Hact & Hst).
    exists st. split; [| apply Z.eqb_refl].
    apply in_map_iff. exists (code, rule). split; [exact Hst |].
    apply filter_In. split.
    + apply list_elem_of_In, elem_of_map_to_list. exact Hlk.
    + simpl. apply String.eqb_eq. exact Hact.
Qed.

Lemma status_in_not_matches (api_errors : gmap Z ErrorRule) (act : string) (st : Z) :
  status_in st (statuses_of api_errors act) = false <-> ~ matches api_errors act st.
Proof.
  rewrite <- status_in_matches.
  destruct (status_in st (statuses_of api_errors act)); split; intros H; congruence.
Qed.

Lemma raise_for_status_error (r : response) :
  http_error (status_code r) ->
  raise_for_status r = Raise (HTTPError (status_code r)).
Proof.
  unfold http_error, raise_for_status. intros [Hlo Hhi].
  apply Z.leb_le in Hlo. apply Z.ltb_lt in Hhi. rewrite Hlo, Hhi. reflexivity.
Qed.

Lemma raise_for_status_ok (r : response) :
  ~ http_error (status_code r) -> raise_for_status r = Ok tt.
Proof.
  unfold http_error, raise_for_status. intros Hn.
  destruct (Z.leb 400 (status_code r)) eqn:Hlo; [| reflexivity].
  destruct (Z.ltb (status_code r) 600) eqn:Hhi; [| reflexivity].
  apply Z.leb_le in Hlo. apply Z.ltb_lt in Hhi. lia.
Qed.

Lemma raise_for_status_cases (r : response) :
  (raise_for_status r = Ok tt /\ ~ http_error (status_code r)) \/
  (raise_for_status r = Raise (HTTPError (status_code r)) /\ http_error (status_code r)).
Proof.
  destruct (decide (400 <= status_code r < 600)) as [H | H].
  - right. split; [apply raise_for_status_error |]; exact H.
  - left. split; [apply raise_for_status_ok |]; exact H.
Qed.

(** ** Reading the entries of [execute_errors] *)

Lemma entry_of_err_obj (p : pair) : entry_of (err_obj p) = Ok p.
Proof. destruct p. reflexivity. Qed.

Lemma mapM_entry_of (err_pairs : list pair) :
  mapM entry_of (map err_obj err_pairs) = Ok err_pairs.
Proof.
  induction err_pairs as [| p ps IH]; [reflexivity |].
  cbn [map mapM]. rewrite entry_of_err_obj. cbn [bind]. rewrite IH. reflexivity.
Qed.

Lemma rule_of_Some (api_errors : gmap Z ErrorRule) (p : pair) (rule : ErrorRule) :
  rule_of api_errors p = Some rule <-> table_getitem api_errors (fst p) = Ok rule.
Proof.
  unfold rule_of. destruct (table_getitem api_errors (fst p)); split; congruence.
Qed.

Lemma mapM_lookup_mapped {B : Type} (api_errors : gmap Z ErrorRule)
    (f : ErrorRule -> B) (err_pairs : list pair) :
  all_mapped api_errors err_pairs ->
  exists l, mapM (fun p : pair => let* rule := table_getitem api_errors (fst p) in
                                  Ok (f rule)) err_pairs = Ok l.
Proof.
  induction 1 as [| p ps [rule Hp] _ [l IH]]; [exists []; reflexivity |].
  apply rule_of_Some in Hp. cbn [mapM]. rewrite Hp. cbn [bind]. rewrite IH.
  eexists. reflexivity.
Qed.

(** The comprehension of line 33 stops at the first code that the table
    does not have, with the KeyError of the lookup. *)
Lemma mapM_lookup_unmapped {B : Type} (api_errors : gmap Z ErrorRule)
    (f : ErrorRule -> B) (pre post : list pair) (p : pair) :
  all_mapped api_errors pre ->
  table_getitem api_errors (fst p) = Raise KeyError ->
  mapM (fun p : pair => let* rule := table_getitem api_errors (fst p) in
                        Ok (f rule)) (pre ++ p :: post) = Raise KeyError.
Proof.
  intros Hpre Hp. induction Hpre as [| q qs [rule Hq] _ IH].
  - cbn [app mapM]. rewrite Hp. reflexivity.
  - apply rule_of_Some in Hq. cbn [app mapM]. rewrite Hq. cbn [bind]. rewrite IH.
    reflexivity.
Qed.

(** ** The three loops of [_handle_execute_errors] *)

Lemma has_action_rule (api_errors : gmap Z ErrorRule) (act : string) (p : pair)
    (rule : ErrorRule) :
  rule_of api_errors p = Some rule ->
  has_action api_errors act p = String.eqb (action rule) act.
Proof. unfold has_action. intros ->. reflexivity. Qed.

(** The first loop returns at the first Break entry. *)
Lemma scan_break_first (api_errors : gmap Z ErrorRule) (r : response)
    (pre post : list pair) (p : pair) (rule : ErrorRule) (cur : option pair) :
  all_mapped api_errors pre -> not_break api_errors pre ->
  rule_of api_errors p = Some rule -> action rule = "break" ->
  scan_break api_errors r (pre ++ p :: post) cur
  = Ok (inl (set_status r (MatchedHTTPError rule) (snd p))).
Proof.
  intros Hm Hnb Hp Hact. revert cur.
  induction pre as [| [c m] pre IH]; intros cur.
  - destruct p as [c m]. apply rule_of_Some in Hp. cbn [app scan_break].
    simpl in Hp. rewrite Hp. cbn [bind]. rewrite Hact. reflexivity.
  - inversion Hm as [| ? ? [rq Hq] Hm']; subst.
    inversion Hnb as [| ? ? Hq' Hnb']; subst.
    rewrite (has_action_rule _ _ _ _ Hq) in Hq'.
    apply rule_of_Some in Hq. simpl in Hq.
    cbn [app scan_break]. rewrite Hq. cbn [bind]. rewrite Hq'.
    apply IH; assumption.
Qed.

(** Without a Break entry the first loop runs to its end and leaves its
    last entry in [err_code], [err_msg]. *)
Lemma scan_break_none (api_errors : gmap Z ErrorRule) (r : response)
    (err_pairs : list pair) (cur : option pair) :
  all_mapped api_errors err_pairs -> not_break api_errors err_pairs ->
  scan_break api_errors r err_pairs cur
  = Ok (inr (match last err_pairs with Some p => Some p | None => cur end)).
Proof.
  intros Hm Hnb. revert cur.
  induction err_pairs as [| [c m] ps IH]; intros cur; [reflexivity |].
  inversion Hm as [| ? ? [rq Hq] Hm']; subst.
  inversion Hnb as [| ? ? Hq' Hnb']; subst.
  rewrite (has_action_rule _ _ _ _ Hq) in Hq'.
  apply rule_of_Some in Hq. simpl in Hq.
  cbn [scan_break]. rewrite Hq. cbn [bind]. rewrite Hq'.
  rewrite IH by assumption.
  destruct ps as [| q qs]; [reflexivity |].
  rewrite last_cons_cons. destruct (last (q :: qs)) eqn:Hl; [reflexivity |].
  apply last_None in Hl. discriminate.
Qed.

(** The second and the third loop decide on the entry that [err_code] and
    [err_msg] hold, at their first iteration. *)
Lemma scan_stale_cur (api_errors : gmap Z ErrorRule) (r : response) (act : string)
    (err_pairs : list pair) (p : pair) (rule : ErrorRule) :
  err_pairs <> [] -> rule_of api_errors p = Some rule ->
  scan_stale api_errors r act err_pairs (Some p)
  = Ok (if String.eqb (action rule) act
        then Some (set_status r (MatchedHTTPError rule) (snd p))
        else None).
Proof.
  intros Hne Hp. apply rule_of_Some in Hp. destruct p as [c m]. simpl in Hp.
  destruct (String.eqb (action rule) act) eqn:Hact.
  - destruct err_pairs as [| [c0 m0] ps]; [congruence |].
    cbn [scan_stale]. rewrite Hp. cbn [bind]. rewrite Hact. reflexivity.
  - clear Hne. induction err_pairs as [| [c0 m0] ps IH]; [reflexivity |].
    cbn [scan_stale]. rewrite Hp. cbn [bind]. rewrite Hact. exact IH.
Qed.

Lemma execute_errors_body_scan (api_errors : gmap Z ErrorRule) (r : response)
    (err_pairs : list pair) :
  has_execute_errors r err_pairs -> all_mapped api_errors err_pairs ->
  execute_errors_body api_errors r
  = let* b := scan_break api_errors r err_pairs None in
    match b with
    | inl r' => Ok r'
    | inr cur =>
        let* t := scan_stale api_errors r "retry" err_pairs cur in
        match t with
        | Some r' => Ok r'
        | None =>
            let* s := scan_stale api_errors r "skip" err_pairs cur in
            match s with
            | Some r' => Ok r'
            | None => Raise (AssertionError "Unexpected error")
            end
        end
    end.
Proof.
  intros (kvs & Hb & He) Hm. unfold execute_errors_body, r_json, getitem.
  rewrite Hb. cbn [bind]. rewrite He. cbn [bind iter]. rewrite mapM_entry_of.
  cbn [bind].
  destruct (mapM_lookup_mapped api_errors action err_pairs Hm) as [l1 ->].
  destruct (mapM_lookup_mapped api_errors MatchedHTTPError err_pairs Hm) as [l2 ->].
  reflexivity.
Qed.

(** With a Break entry in the list, the hook gives the status and the
    message of the first one. *)
Lemma execute_errors_first_break (api_errors : gmap Z ErrorRule) (r : response)
    (pre post : list pair) (p : pair) (rule : ErrorRule) :
  has_execute_errors r (pre ++ p :: post) ->
  all_mapped api_errors (pre ++ p :: post) ->
  not_break api_errors pre ->
  rule_of api_errors p = Some rule -> action rule = "break" ->
  _handle_execute_errors api_errors r
  = Ok (set_status r (MatchedHTTPError rule) (snd p)).
Proof.
  intros Hr Hm Hnb Hp Hact. unfold _handle_execute_errors.
  rewrite (execute_errors_body_scan _ _ _ Hr Hm).
  rewrite (scan_break_first _ _ _ _ _ rule) by
    (try assumption; apply Forall_app in Hm; tauto).
  reflexivity.
Qed.

(** Without a Break entry, the hook decides on the last entry of the list
    alone: its status and message when its action is Retry or Skip, the
    assertion of line 54 otherwise. *)
Lemma execute_errors_no_break (api_errors : gmap Z ErrorRule) (r : response)
    (err_pairs : list pair) (p : pair) (rule : ErrorRule) :
  has_execute_errors r err_pairs ->
  all_mapped api_errors err_pairs -> not_break api_errors err_pairs ->
  last err_pairs = Some p -> rule_of api_errors p = Some rule ->
  _handle_execute_errors api_errors r
  = if String.eqb (action rule) "retry" || String.eqb (action rule) "skip"
    then Ok (set_status r (MatchedHTTPError rule) (snd p))
    else Raise (AssertionError "Unexpected error").
Proof.
  intros Hr Hm Hnb Hl Hp. unfold _handle_execute_errors.
  rewrite (execute_errors_body_scan _ _ _ Hr Hm).
  rewrite scan_break_none by assumption. rewrite Hl. cbn [bind].
  assert (Hne : err_pairs <> []) by (intros ->; discriminate).
  rewrite !(scan_stale_cur _ _ _ _ _ rule Hne Hp).
  destruct (String.eqb (action rule) "retry"); [reflexivity |].
  cbn [bind orb].
  destruct (String.eqb (action rule) "skip"); reflexivity.
Qed.

(** A code that the table does not have: the KeyError of the lookup of
    line 33 is caught by the [except KeyError] of line 55, which was written
    for a body without [execute_errors], and the hook returns the response
    as it came. *)
Lemma execute_errors_unmapped (api_errors : gmap Z ErrorRule) (r : response)
    (pre post : list pair) (p : pair) :
  has_execute_errors r (pre ++ p :: post) ->
  all_mapped api_errors pre ->
  table_getitem api_errors (fst p) = Raise KeyError ->
  _handle_execute_errors api_errors r = Ok r.
Proof.
  intros (kvs & Hb & He) Hpre Hp.
  unfold _handle_execute_errors, execute_errors_body, r_json, getitem.
  rewrite Hb. cbn [bind]. rewrite He. cbn [bind iter]. rewrite mapM_entry_of.
  cbn [bind]. rewrite (mapM_lookup_unmapped api_errors action pre post p Hpre Hp).
  reflexivity.
Qed.

(** ** The hook [_handle_api_errors] *)

(** The [return r] of the [finally] clause: the hook never raises. *)
Lemma handle_api_errors_total (api_errors : gmap Z ErrorRule) (r : response) :
  exists r', _handle_api_errors api_errors r = Ok r'.
Proof.
  unfold _handle_api_errors. destruct (api_errors_body api_errors r); eauto.
Qed.

Lemma api_errors_body_entry (api_errors : gmap Z ErrorRule) (r : response) (p : pair) :
  has_error r p ->
  api_errors_body api_errors r
  = let* known := table_contains api_errors (fst p) in
    if negb known
    then Raise (AssertionError "Unexpected err_code")
    else let* rule := table_getitem api_errors (fst p) in
         Ok (set_status r (MatchedHTTPError rule) (snd p)).
Proof.
  intros (kvs & Hb & He). destruct p as [c m].
  unfold api_errors_body, r_json, getitem. rewrite Hb. cbn [bind]. rewrite He.
  reflexivity.
Qed.

(** A code of the table: the status becomes the rule's, the reason the
    message. *)
Lemma handle_api_errors_mapped (api_errors : gmap Z ErrorRule) (r : response)
    (code : Z) (msg : json) (rule : ErrorRule) :
  has_error r (JNum code, msg) -> api_errors !! code = Some rule ->
  _handle_api_errors api_errors r = Ok (set_status r (MatchedHTTPError rule) msg).
Proof.
  intros Hr Hlk. unfold _handle_api_errors.
  rewrite (api_errors_body_entry _ _ _ Hr).
  unfold table_contains, table_getitem. cbn [fst snd key_of]. rewrite Hlk.
  rewrite bool_decide_eq_true_2 by eauto. reflexivity.
Qed.

(** A code that the table does not have: the assertion of line 65 fails
    inside the [try] and the [finally] clause returns the response as it
    came. *)
Lemma handle_api_errors_unmapped (api_errors : gmap Z ErrorRule) (r : response)
    (code : Z) (msg : json) :
  has_error r (JNum code, msg) -> api_errors !! code = None ->
  api_errors_body api_errors r = Raise (AssertionError "Unexpected err_code") /\
  _handle_api_errors api_errors r = Ok r.
Proof.
  intros Hr Hlk. unfold _handle_api_errors.
  rewrite (api_errors_body_entry _ _ _ Hr).
  unfold table_contains. cbn [fst snd key_of]. rewrite Hlk.
  rewrite bool_decide_eq_false_2 by (intros [x Hx]; discriminate).
  split; reflexivity.
Qed.

(** ** Bodies without error fields *)

Lemma handle_execute_errors_no_field (api_errors : gmap Z ErrorRule) (r : response)
    (kvs : list (string * json)) :
  body r = Some (JObj kvs) -> assoc "execute_errors" kvs = None ->
  _handle_execute_errors api_errors r = Ok r.
Proof.
  intros Hb He. unfold _handle_execute_errors, execute_errors_body, r_json, getitem.
  rewrite Hb. cbn [bind]. rewrite He. reflexivity.
Qed.

(** The second hook leaves untouched whatever has no readable entry under
    [error], a body that is not JSON included. *)
Lemma handle_api_errors_no_field (api_errors : gmap Z ErrorRule) (r : response) :
  (forall kvs, body r = Some (JObj kvs) -> assoc "error" kvs = None) ->
  _handle_api_errors api_errors r = Ok r.
Proof.
  intros Hno. unfold _handle_api_errors, api_errors_body, r_json.
  destruct (body r) as [j |] eqn:Hb; [| reflexivity].
  destruct j; try reflexivity.
  cbn [bind getitem]. rewrite (Hno kvs eq_refl). reflexivity.
Qed.

Lemma session_get_no_error_fields (api_errors : gmap Z ErrorRule) (r : response) :
  no_error_fields r -> session_get api_errors r = Ok r.
Proof.
  intros (kvs & Hb & He & Ha). unfold session_get.
  rewrite (handle_execute_errors_no_field _ _ _ Hb He). cbn [bind].
  apply handle_api_errors_no_field. intros kvs' Hb'. congruence.
Qed.


Lemma handle_execute_errors_not_object (api_errors : gmap Z ErrorRule) (r : response)
    (j : json) :
  body r = Some j -> (forall kvs, j <> JObj kvs) ->
  _handle_execute_errors api_errors r = Raise TypeError.
Proof.
  intros Hb Hj. unfold _handle_execute_errors, execute_errors_body, r_json.
  rewrite Hb. destruct j; try reflexivity. exfalso. eapply Hj. reflexivity.
Qed.

(** The hooks assign [status_code] and [reason] only. *)

Lemma bind_Ok {A B : Type} (m : result A) (k : A -> result B) (b : B) :
  bind m k = Ok b -> exists a, m = Ok a /\ k a = Ok b.
Proof. destruct m as [a | e]; cbn [bind]; [eauto | discriminate]. Qed.

Lemma scan_break_body (api_errors : gmap Z ErrorRule) (r x : response)
    (err_pairs : list pair) (cur : option pair) :
  scan_break api_errors r err_pairs cur = Ok (inl x) -> body x = body r.
Proof.
  revert cur. induction err_pairs as [| [c m] ps IH]; intros cur H;
    cbn [scan_break] in H; [discriminate |].
  apply bind_Ok in H as (a & _ & H). destruct (String.eqb (action a) "break").
  - injection H as <-. reflexivity.
  - eapply IH. exact H.
Qed.

Lemma scan_stale_body (api_errors : gmap Z ErrorRule) (r x : response) (act : string)
    (err_pairs : list pair) (cur : option pair) :
  scan_stale api_errors r act err_pairs cur = Ok (Some x) -> body x = body r.
Proof.
  induction err_pairs as [| [c m] ps IH]; intros H;
    cbn [scan_stale] in H; [discriminate |].
  destruct cur as [[c' m'] |]; [| discriminate].
  apply bind_Ok in H as (a & _ & H). destruct (String.eqb (action a) act).
  - injection H as <-. reflexivity.
  - apply IH. exact H.
Qed.

Lemma execute_errors_body_body (api_errors : gmap Z ErrorRule) (r x : response) :
  execute_errors_body api_errors r = Ok x ->
  body x = body r /\ exists j, body r = Some j.
Proof.
  unfold execute_errors_body. intros H.
  apply bind_Ok in H as (j & Hj & H).
  split; [| unfold r_json in Hj; destruct (body r); [eauto | discriminate]].
  apply bind_Ok in H as (errors & _ & H).
  apply bind_Ok in H as (errs & _ & H).
  apply bind_Ok in H as (err_pairs & _ & H).
  apply bind_Ok in H as (actions & _ & H).
  apply bind_Ok in H as (http_errors & _ & H).
  apply bind_Ok in H as (b & Hb & H).
  destruct b as [r' | cur].
  - injection H as <-. eapply scan_break_body. exact Hb.
  - apply bind_Ok in H as (t & Ht & H). destruct t as [r' |].
    + injection H as <-. eapply scan_stale_body. exact Ht.
    + apply bind_Ok in H as (s & Hs & H). destruct s as [r' |]; [| discriminate].
      injection H as <-. eapply scan_stale_body. exact Hs.
Qed.

Lemma handle_api_errors_body (api_errors : gmap Z ErrorRule) (r x : response) :
  _handle_api_errors api_errors r = Ok x -> body x = body r.
Proof.
  unfold _handle_api_errors. intros H.
  destruct (api_errors_body api_errors r) as [r' | e] eqn:Hb.
  - injection H as <-. unfold api_errors_body in Hb.
    apply bind_Ok in Hb as (j & _ & Hb).
    apply bind_Ok in Hb as (e & _ & Hb).
    apply bind_Ok in Hb as (err_code & _ & Hb).
    apply bind_Ok in Hb as (j' & _ & Hb).
    apply bind_Ok in Hb as (e' & _ & Hb).
    apply bind_Ok in Hb as (err_msg & _ & Hb).
    apply bind_Ok in Hb as (known & _ & Hb).
    destruct (negb known); [discriminate |].
    apply bind_Ok in Hb as (rule & _ & Hb). injection Hb as <-. reflexivity.
  - injection H as <-. reflexivity.
Qed.

(** What [s.get] returns has a JSON body, the one that came: line 163
    cannot raise. *)
Lemma session_get_body (api_errors : gmap Z ErrorRule) (raw r : response) :
  session_get api_errors raw = Ok r -> exists j, body r = Some j.
Proof.
  unfold session_get. intros H. apply bind_Ok in H as (a & Ha & H).
  apply handle_api_errors_body in H. rewrite H.
  unfold _handle_execute_errors in Ha.
  destruct (execute_errors_body api_errors raw) as [r1 | e] eqn:Hb.
  - injection Ha as <-. apply execute_errors_body_body in Hb as [-> Hj]. exact Hj.
  - destruct e; try discriminate. injection Ha as <-.
    unfold execute_errors_body in Hb.
    destruct (r_json raw) as [j |] eqn:Hj; cbn [bind] in Hb.
    + unfold r_json in Hj. destruct (body raw); [eauto | discriminate].
    + unfold r_json in Hj. destruct (body raw); congruence.
Qed.

(** ** One iteration of the loop of [_retry_wrapper] *)

Lemma backoff_nonneg (f : Q) (n : nat) : (0 <= f)%Q -> (0 <= backoff f n)%Q.
Proof.
  intros Hf. unfold backoff. apply Qmult_le_0_compat; [exact Hf |].
  change 0%Q with (inject_Z 0). rewrite <- Zle_Qle. apply Z.pow_nonneg. lia.
Qed.

Lemma time_sleep_nonneg (f : Q) (n : nat) :
  (0 <= f)%Q -> time_sleep (backoff f n) = Ok tt.
Proof.
  intros Hf. unfold time_sleep.
  destruct (Qlt_le_dec (backoff f n) 0) as [Hlt | Hle]; [| reflexivity].
  exfalso. apply (Qlt_not_le _ _ Hlt). apply backoff_nonneg. exact Hf.
Qed.

Lemma backoff_lt (f : Q) (n m : nat) :
  (0 < f)%Q -> (n < m)%nat -> (backoff f n < backoff f m)%Q.
Proof.
  intros Hf Hnm. unfold backoff. apply Qmult_lt_l; [exact Hf |].
  rewrite <- Zlt_Qlt. apply Z.pow_lt_mono_r; lia.
Qed.

Section Iteration.
Variable api_errors : gmap Z ErrorRule.
Variable backoff_factor : Q.
Variables (retries : nat) (raw r : response) (rest : list response).
Hypothesis Hget : session_get api_errors raw = Ok r.

Let st := status_code r.

(** Step 4: no HTTP error, the response is returned. *)
Lemma iteration_success :
  ~ http_error st ->
  retry_loop api_errors backoff_factor retries (raw :: rest) = stop (Ok (Some r)).
Proof.
  intros Hs. cbn [retry_loop]. rewrite Hget.
  rewrite (raise_for_status_ok _ Hs).
  destruct (session_get_body _ _ _ Hget) as [j Hj].
  unfold r_json. rewrite Hj. reflexivity.
Qed.

(** Line 149: the Skip check comes first. *)
Lemma iteration_skip :
  http_error st -> matches api_errors "skip" st ->
  retry_loop api_errors backoff_factor retries (raw :: rest) = stop (Ok None).
Proof.
  intros He Hs. cbn [retry_loop]. rewrite Hget.
  rewrite (raise_for_status_error _ He).
  apply status_in_matches in Hs. fold st. rewrite Hs. reflexivity.
Qed.

(** Line 152: the Break check comes second. *)
Lemma iteration_break :
  http_error st -> ~ matches api_errors "skip" st -> matches api_errors "break" st ->
  retry_loop api_errors backoff_factor retries (raw :: rest) = stop (Raise SystemExit).
Proof.
  intros He Hs Hb. cbn [retry_loop]. rewrite Hget.
  rewrite (raise_for_status_error _ He).
  apply status_in_not_matches in Hs. apply status_in_matches in Hb.
  fold st. rewrite Hs, Hb. reflexivity.
Qed.

(** Line 155: the Retry check comes last; [retries] was incremented at
    line 148, before the wait is computed. *)
Lemma iteration_retry :
  (0 <= backoff_factor)%Q ->
  http_error st -> ~ matches api_errors "skip" st -> ~ matches api_errors "break" st ->
  matches api_errors "retry" st ->
  retry_loop api_errors backoff_factor retries (raw :: rest)
  = slept (backoff backoff_factor (S retries))
          (retry_loop api_errors backoff_factor (S retries) rest).
Proof.
  intros Hf He Hs Hb Hr. cbn [retry_loop]. rewrite Hget.
  rewrite (raise_for_status_error _ He).
  apply status_in_not_matches in Hs, Hb. apply status_in_matches in Hr.
  fold st. rewrite Hs, Hb, Hr. rewrite (time_sleep_nonneg _ _ Hf). reflexivity.
Qed.

(** Line 162: a status that no rule of the three kinds has. *)
Lemma iteration_unclassified :
  http_error st -> ~ matches api_errors "skip" st -> ~ matches api_errors "break" st ->
  ~ matches api_errors "retry" st ->
  retry_loop api_errors backoff_factor retries (raw :: rest)
  = stop (Raise (SystemExitErr st)).
Proof.
  intros He Hs Hb Hr. cbn [retry_loop]. rewrite Hget.
  rewrite (raise_for_status_error _ He).
  apply status_in_not_matches in Hs, Hb, Hr.
  fold st. rewrite Hs, Hb, Hr. reflexivity.
Qed.
End Iteration.

(** An exception of a hook leaves [s.get] and the loop with it. *)
Lemma iteration_raise (api_errors : gmap Z ErrorRule) (backoff_factor : Q)
    (retries : nat) (raw : response) (rest : list response) (e : exn) :
  session_get api_errors raw = Raise e ->
  retry_loop api_errors backoff_factor retries (raw :: rest) = stop (Raise e).
Proof. intros H. cbn [retry_loop]. rewrite H. reflexivity. Qed.

(** ** Runs of the loop *)

(** The waits of a run are [backoff_factor * 2 ** retries] for the
    successive values of [retries], the first being one more than at the
    start. *)
Lemma sleeps_backoff (api_errors : gmap Z ErrorRule) (f : Q) (n : nat)
    (transport : list response) :
  sleeps (retry_loop api_errors f n transport)
  = map (backoff f) (seq (S n) (List.length (sleeps (retry_loop api_errors f n transport)))).
Proof.
  revert n. induction transport as [| raw rest IH]; intros n; [reflexivity |].
  cbn [retry_loop].
  destruct (session_get api_errors raw) as [r | e]; [| reflexivity].
  destruct (raise_for_status r) as [[] | e]; [reflexivity |].
  destruct e; try reflexivity.
  destruct (status_in status (statuses_of api_errors "skip")); [reflexivity |].
  destruct (status_in status (statuses_of api_errors "break")); [reflexivity |].
  destruct (status_in status (statuses_of api_errors "retry")); [| reflexivity].
  destruct (time_sleep (backoff f (S n))); [| reflexivity].
  cbn [slept sleeps List.length seq map]. f_equal. apply IH.
Qed.

(** A run counts one attempt per wait, and one more when it has ended. *)
Lemma attempts_sleeps (api_errors : gmap Z ErrorRule) (f : Q) (n : nat)
    (transport : list response) :
  let k := retry_loop api_errors f n transport in
  match ended k with
  | Done _ => attempts k = S (List.length (sleeps k))
  | Pending m => attempts k = List.length (sleeps k) /\ m = (n + attempts k)%nat
  end.
Proof.
  revert n. induction transport as [| raw rest IH]; intros n;
    [cbn; split; [reflexivity | lia] |].
  cbn [retry_loop].
  destruct (session_get api_errors raw) as [r | e]; [| reflexivity].
  destruct (raise_for_status r) as [[] | e]; [reflexivity |].
  destruct e; try reflexivity.
  destruct (status_in status (statuses_of api_errors "skip")); [reflexivity |].
  destruct (status_in status (statuses_of api_errors "break")); [reflexivity |].
  destruct (status_in status (statuses_of api_errors "retry")); [| reflexivity].
  destruct (time_sleep (backoff f (S n))); [| reflexivity].
  specialize (IH (S n)). cbn zeta in IH. cbn [slept ended sleeps attempts List.length].
  destruct (ended (retry_loop api_errors f (S n) rest)).
  - f_equal. exact IH.
  - destruct IH as [IH1 IH2]. split; [f_equal; exact IH1 | lia].
Qed.



(** A run that has ended did so on one response, after retry-classified
    ones only: by one of the four exits of the loop, or with the exception
    that the hooks raised inside [s.get]. *)
Lemma retry_loop_exit (api_errors : gmap Z ErrorRule) (f : Q) (n : nat)
    (transport : list response) (x : result (option response)) :
  (0 <= f)%Q ->
  ended (retry_loop api_errors f n transport) = Done x ->
  exists (pre : list response) (raw : response) (post : list response),
    transport = (pre ++ raw :: post)%list /\
    Forall (retry_classified api_errors) pre /\
    (exit_on api_errors raw x \/
     exists e, session_get api_errors raw = Raise e /\ x = Raise e).
Proof.
  intros Hf. revert n. induction transport as [| raw rest IH]; intros n H;
    [discriminate |].
  destruct (session_get api_errors raw) as [r | e] eqn:Hget.
  - destruct (decide (http_error (status_code r))) as [He | He].
    + destruct (status_in (status_code r) (statuses_of api_errors "skip")) eqn:Hs.
      { apply status_in_matches in Hs.
        rewrite (iteration_skip _ _ _ _ _ _ Hget He Hs) in H. injection H as <-.
        exists [], raw, rest. split; [reflexivity |]. split; [constructor |].
        left. eapply exit_skip; eassumption. }
      apply status_in_not_matches in Hs.
      destruct (status_in (status_code r) (statuses_of api_errors "break")) eqn:Hb.
      { apply status_in_matches in Hb.
        rewrite (iteration_break _ _ _ _ _ _ Hget He Hs Hb) in H. injection H as <-.
        exists [], raw, rest. split; [reflexivity |]. split; [constructor |].
        left. eapply exit_break; eassumption. }
      apply status_in_not_matches in Hb.
      destruct (status_in (status_code r) (statuses_of api_errors "retry")) eqn:Hr.
      * apply status_in_matches in Hr.
        rewrite (iteration_retry _ _ _ _ _ _ Hget Hf He Hs Hb Hr) in H.
        cbn [slept ended] in H.
        destruct (IH _ H) as (pre & raw' & post & -> & Hpre & Hx).
        exists (raw :: pre), raw', post. split; [reflexivity |].
        split; [| exact Hx]. constructor; [| exact Hpre].
        exists r. auto.
      * apply status_in_not_matches in Hr.
        rewrite (iteration_unclassified _ _ _ _ _ _ Hget He Hs Hb Hr) in H.
        injection H as <-.
        exists [], raw, rest. split; [reflexivity |]. split; [constructor |].
        left. eapply exit_unclassified; eassumption.
    + rewrite (iteration_success _ _ _ _ _ _ Hget He) in H. injection H as <-.
      exists [], raw, rest. split; [reflexivity |]. split; [constructor |].
      left. eapply exit_success; eassumption.
  - rewrite (iteration_raise _ _ _ _ _ _ Hget) in H. injection H as <-.
    exists [], raw, rest. split; [reflexivity |]. split; [constructor |].
    right. eauto.
Qed.

(** ** The embedded-error hook and the priority policy *)

(** C1 (the code departs from the claim).  The claim: the status and the
    reason come from the first Break entry; if none, from the first Retry
    entry; if none, from the first Skip entry, whatever the order of the
    list.  The code: on the list [100 (retry), 200 (skip)] the policy gives
    503 and the message of the Retry entry, and [_handle_execute_errors]
    gives 404 and the message of the Skip entry, because the loops of
    lines 42 and 48 test [err_code], the last entry that the first loop left
    behind; on the same entries in the other order it gives 503. *)
Theorem C1_retry_tier_reads_last_entry :
  let retry_e : pair := (JNum 100, JStr "a") in
  let skip_e : pair := (JNum 200, JStr "b") in
  tiered_spec table_all [retry_e; skip_e] = Some (503, JStr "a") /\
  _handle_execute_errors table_all (execute_errors_response [retry_e; skip_e])
  = Ok (set_status (execute_errors_response [retry_e; skip_e]) 404 (JStr "b")) /\
  tiered_spec table_all [skip_e; retry_e] = Some (503, JStr "a") /\
  _handle_execute_errors table_all (execute_errors_response [skip_e; retry_e])
  = Ok (set_status (execute_errors_response [skip_e; retry_e]) 503 (JStr "a")).
Proof. cbv zeta. repeat split; vm_compute; reflexivity. Qed.

(** C2 (the code departs from the claim).  The claim: an embedded error
    code that the table does not have is fatal and the response is never
    returned with its status unchanged.  The code: for the code 999, which
    [table_all] does not have, [_handle_execute_errors] returns the response
    as it came, [s.get] too, and [_retry_wrapper] returns it as a success
    after one attempt; this holds even when the list also has a Break
    entry. *)
Theorem C2_unmapped_execute_error_is_swallowed :
  let unknown : pair := (JNum 999, JStr "Unknown") in
  let fatal : pair := (JNum 300, JStr "Fatal") in
  table_all !! 999 = None /\
  (forall err_pairs, In err_pairs [[unknown]; [fatal; unknown]; [unknown; fatal]] ->
     let raw := execute_errors_response err_pairs in
     _handle_execute_errors table_all raw = Ok raw /\
     session_get table_all raw = Ok raw /\
     _retry_wrapper table_all backoff_factor_0_09 [raw]
     = {| ended := Done (Ok (Some raw)); sleeps := []; attempts := 1 |}).
Proof.
  cbv zeta. split; [vm_compute; reflexivity |].
  intros err_pairs [<- | [<- | [<- | []]]]; repeat split; vm_compute; reflexivity.
Qed.

(** C3 (the code departs from the claim).  The claim: for a top-level error
    whose code the table does not have, the interceptor raises an
    unexpected-state fault instead of returning the response unchanged.
    The code: the assertion of line 65 does fail, inside the [try]; the
    [return r] of the [finally] clause then discards it, the hook returns
    the response as it came and [_retry_wrapper] returns it as a success. *)
Theorem C3_unmapped_api_error_is_swallowed :
  let raw := error_response 999 "Unknown" in
  table_all !! 999 = None /\
  api_errors_body table_all raw = Raise (AssertionError "Unexpected err_code") /\
  _handle_api_errors table_all raw = Ok raw /\
  session_get table_all raw = Ok raw /\
  _retry_wrapper table_all backoff_factor_0_09 [raw]
  = {| ended := Done (Ok (Some raw)); sleeps := []; attempts := 1 |}.
Proof. cbv zeta. repeat split; vm_compute; reflexivity. Qed.

(** C7 (the code departs from the claim).  The claim: on a body without
    [execute_errors] and without [error], malformed bodies included, both
    interceptors return the response unchanged and raise nothing.  The
    code: [_handle_execute_errors] catches KeyError only; on a body that is
    not JSON it raises the JSONDecodeError of [r.json()], on a JSON body
    that is not an object (here an empty list) the TypeError of the
    subscript, and the exception leaves [s.get] and [_retry_wrapper]. *)
Theorem C7_execute_hook_raises_on_malformed_body :
  forall api_errors : gmap Z ErrorRule,
    _handle_execute_errors api_errors not_json_response = Raise JSONDecodeError /\
    session_get api_errors not_json_response = Raise JSONDecodeError /\
    _retry_wrapper api_errors backoff_factor_0_09 [not_json_response]
    = {| ended := Done (Raise JSONDecodeError); sleeps := []; attempts := 1 |} /\
    _handle_execute_errors api_errors (http_200 (JArr [])) = Raise TypeError /\
    _handle_api_errors api_errors not_json_response = Ok not_json_response.
Proof. intros api_errors. repeat split; reflexivity. Qed.

(** ** The waits of the dispatch loop *)

Lemma nth_sleep_backoff (api_errors : gmap Z ErrorRule) (f : Q)
    (transport : list response) (n : nat) (w : Q) :
  nth_sleep (_retry_wrapper api_errors f transport) n = Some w -> w = backoff f n.
Proof.
  unfold _retry_wrapper. destruct n as [| i]; [discriminate |].
  cbn [nth_sleep]. rewrite sleeps_backoff. intros H.
  rewrite nth_error_map, nth_error_seq in H.
  destruct (Nat.ltb i _); [| discriminate].
  injection H as <-. reflexivity.
Qed.

(** C4.  The wait slept before the [n]-th retry of a run (retries numbered
    from one, as the scenario of the claim numbers them) is
    [backoff_factor * 2 ^ n]; for a positive factor the waits increase
    strictly with [n]; with the table [{100: retry, 503}] and the factor
    0.09, three answers with the embedded code 100 (under [error] or in
    [execute_errors]) followed by a successful one give three retries, the
    waits 0.18, 0.36 and 0.72, and the successful response. *)
Theorem C4_backoff_delays :
  (forall (api_errors : gmap Z ErrorRule) (f : Q) (transport : list response)
          (n : nat) (w : Q),
     nth_sleep (_retry_wrapper api_errors f transport) n = Some w ->
     w = (f * inject_Z (2 ^ Z.of_nat n))%Q) /\
  (forall (api_errors : gmap Z ErrorRule) (f : Q) (transport : list response)
          (n m : nat) (w w' : Q),
     (0 < f)%Q -> (n < m)%nat ->
     nth_sleep (_retry_wrapper api_errors f transport) n = Some w ->
     nth_sleep (_retry_wrapper api_errors f transport) m = Some w' ->
     (w < w')%Q) /\
  (forall raw : response,
     In raw [error_response 100 "Too many requests";
             execute_errors_response [(JNum 100, JStr "Too many requests")]] ->
     _retry_wrapper table_retry backoff_factor_0_09
       [raw; raw; raw; friends_response [7; 8]]
     = {| ended := Done (Ok (Some (friends_response [7; 8])));
          sleeps := [18 # 100; 36 # 100; 72 # 100]%Q;
          attempts := 4 |}).
Proof.
  split; [| split].
  - intros api_errors f transport n w H.
    apply nth_sleep_backoff in H. exact H.
  - intros api_errors f transport n m w w' Hf Hnm Hn Hm.
    apply nth_sleep_backoff in Hn, Hm. subst w w'. apply backoff_lt; assumption.
  - intros raw [<- | [<- | []]]; vm_compute; reflexivity.
Qed.

Lemma C4_backoff_delays_witness :
  let k := _retry_wrapper table_retry backoff_factor_0_09
             [error_response 100 "m"; error_response 100 "m"; friends_response [7]] in
  nth_sleep k 2 = Some (36 # 100)%Q /\
  (36 # 100)%Q = (backoff_factor_0_09 * inject_Z (2 ^ Z.of_nat 2))%Q /\
  ((18 # 100) < (36 # 100))%Q.
Proof.
  cbv zeta. split; [vm_compute; reflexivity |]. split.
  - apply (proj1 C4_backoff_delays table_retry backoff_factor_0_09
             [error_response 100 "m"; error_response 100 "m"; friends_response [7]]
             2%nat (36 # 100)%Q).
    vm_compute. reflexivity.
  - apply (proj1 (proj2 C4_backoff_delays) table_retry backoff_factor_0_09
             [error_response 100 "m"; error_response 100 "m"; friends_response [7]]
             1%nat 2%nat (18 # 100)%Q (36 # 100)%Q).
    + reflexivity.
    + lia.
    + vm_compute. reflexivity.
    + vm_compute. reflexivity.
Defined.

(** ** The dispositions of the dispatch loop *)

Lemma domain_method_ended (after : option response -> result json)
    (api_errors : gmap Z ErrorRule) (transport : list response)
    (x : result (option response)) :
  ended (_retry_wrapper api_errors backoff_factor_0_09 transport) = Done x ->
  domain_method after api_errors transport
  = Done (match x with Ok r => after r | Raise e => Raise e end).
Proof. unfold domain_method. intros ->. destruct x; reflexivity. Qed.

(** C5.  When the attempt fails with an HTTP error whose status a Skip rule
    of the table has, the loop returns [None] there and then: no wait, no
    further [s.get], whatever the value of [retries] and whatever the
    transport would answer next; and each of the three domain methods
    returns the empty list [[]] to its caller. *)
Theorem C5_skip_returns_no_result
    (api_errors : gmap Z ErrorRule) (f : Q) (retries : nat)
    (raw r : response) (rest : list response) :
  session_get api_errors raw = Ok r ->
  http_error (status_code r) ->
  matches api_errors "skip" (status_code r) ->
  retry_loop api_errors f retries (raw :: rest)
  = {| ended := Done (Ok None); sleeps := []; attempts := 1 |} /\
  execute api_errors (raw :: rest) = Done (Ok (JArr [])) /\
  get_users_ids api_errors (raw :: rest) = Done (Ok (JArr [])) /\
  get_friends api_errors (raw :: rest) = Done (Ok (JArr [])).
Proof.
  intros Hget He Hs.
  assert (H : forall f n, retry_loop api_errors f n (raw :: rest) = stop (Ok None))
    by (intros; eapply iteration_skip; eassumption).
  split; [apply H |].
  unfold execute, get_users_ids, get_friends.
  repeat split; (erewrite domain_method_ended;
    [| unfold _retry_wrapper; rewrite H; reflexivity]); reflexivity.
Qed.

Lemma C5_skip_returns_no_result_witness :
  get_friends table_skip [error_response 200 "Gone"; friends_response [7]]
  = Done (Ok (JArr [])).
Proof.
  apply (C5_skip_returns_no_result table_skip backoff_factor_0_09 0
           (error_response 200 "Gone")
           (set_status (error_response 200 "Gone") 404 (JStr "Gone"))
           [friends_response [7]]).
  - vm_compute. reflexivity.
  - unfold http_error. cbn. lia.
  - exists 200, (mkRule "skip" 404). vm_compute. repeat split; reflexivity.
Defined.

(** C6, as the claim states it, fails: with two rules that have the status
    403, one Skip and one Break, the attempt that fails with 403 matches a
    Break rule and the loop returns [None]; [get_friends] returns [[]] and
    the process goes on. *)
Lemma C6_break_pre_empted_by_skip :
  ~ (forall (api_errors : gmap Z ErrorRule) (f : Q) (raw r : response)
            (rest : list response),
       session_get api_errors raw = Ok r ->
       http_error (status_code r) ->
       matches api_errors "break" (status_code r) ->
       ended (_retry_wrapper api_errors f (raw :: rest)) = Done (Raise SystemExit)).
Proof.
  intros H.
  specialize (H table_overlap backoff_factor_0_09
                (error_response 2 "Denied")
                (set_status (error_response 2 "Denied") 403 (JStr "Denied")) []).
  assert (Hrun : ended (_retry_wrapper table_overlap backoff_factor_0_09
                          [error_response 2 "Denied"]) = Done (Ok None))
    by (vm_compute; reflexivity).
  rewrite Hrun in H. discriminate H.
  - vm_compute. reflexivity.
  - unfold http_error. cbn. lia.
  - exists 2, (mkRule "break" 403). vm_compute. repeat split; reflexivity.
Qed.

(** C6, amended.  When the attempt fails with an HTTP error whose status a
    Break rule of the table has and no Skip rule has, the loop raises
    SystemExit there and then: no wait, no further [s.get], whatever the
    value of [retries]; the exception leaves each of the three domain
    methods, which have no handler for it. *)
Theorem C6_break_terminates
    (api_errors : gmap Z ErrorRule) (f : Q) (retries : nat)
    (raw r : response) (rest : list response) :
  session_get api_errors raw = Ok r ->
  http_error (status_code r) ->
  matches api_errors "break" (status_code r) ->
  ~ matches api_errors "skip" (status_code r) ->
  retry_loop api_errors f retries (raw :: rest)
  = {| ended := Done (Raise SystemExit); sleeps := []; attempts := 1 |} /\
  execute api_errors (raw :: rest) = Done (Raise SystemExit) /\
  get_users_ids api_errors (raw :: rest) = Done (Raise SystemExit) /\
  get_friends api_errors (raw :: rest) = Done (Raise SystemExit).
Proof.
  intros Hget He Hb Hs.
  assert (H : forall f n,
             retry_loop api_errors f n (raw :: rest) = stop (Raise SystemExit))
    by (intros; eapply iteration_break; eassumption).
  split; [apply H |].
  unfold execute, get_users_ids, get_friends.
  repeat split; (erewrite domain_method_ended;
    [| unfold _retry_wrapper; rewrite H; reflexivity]); reflexivity.
Qed.

Lemma table_break_no_skip (st : Z) : ~ matches table_break "skip" st.
Proof.
  intros (code & rule & Hlk & Hact & _). unfold table_break in Hlk.
  apply lookup_singleton_Some in Hlk as [_ <-]. discriminate Hact.
Qed.

Lemma C6_break_terminates_witness :
  get_friends table_break [error_response 300 "Denied"; friends_response [7]]
  = Done (Raise SystemExit).
Proof.
  apply (C6_break_terminates table_break backoff_factor_0_09 0
           (error_response 300 "Denied")
           (set_status (error_response 300 "Denied") 400 (JStr "Denied"))
           [friends_response [7]]).
  - vm_compute. reflexivity.
  - unfold http_error. cbn. lia.
  - exists 300, (mkRule "break" 400). vm_compute. repeat split; reflexivity.
  - apply table_break_no_skip.
Defined.

(** ** Responses that call for a retry *)



(** ** The domain methods on a successful response of the wrong shape *)

Lemma get_users_ids_after_path (r : response) (j : json) (e : exn) :
  body r = Some j -> users_ids j = Raise e ->
  get_users_ids_after (Some r)
  = Raise (match e with
           | KeyError =>
               SystemExitMsg "Unexpected keys in response. `response` are Expected"
           | _ => e
           end).
Proof.
  intros Hb. unfold get_users_ids_after, users_ids, r_json. rewrite Hb.
  cbn [bind]. destruct (getitem j "response") as [friends | e1]; cbn [bind];
    [| intros [= ->]; destruct e; reflexivity].
  destruct (iter friends) as [users | e1]; cbn [bind];
    [| intros [= ->]; destruct e; reflexivity].
  intros ->. cbn [bind]. destruct e; reflexivity.
Qed.

Lemma get_friends_after_path (r : response) (j : json) (e : exn) :
  body r = Some j -> get_path j ["response"; "items"] = Raise e ->
  get_friends_after (Some r)
  = Raise (match e with
           | KeyError =>
               SystemExitMsg "Unexpected keys in response. `response.items` are Expected"
           | _ => e
           end).
Proof.
  intros Hb. unfold get_friends_after, r_json. rewrite Hb. cbn [bind get_path].
  destruct (getitem j "response") as [resp | e1]; cbn [bind];
    [| intros [= ->]; destruct e; reflexivity].
  destruct (getitem resp "items") as [friends | e1]; cbn [bind];
    [discriminate | intros [= ->]; destruct e; reflexivity].
Qed.

(** ** The order of the checks *)

(** C10.  The loop tests the status of a failed attempt against the Skip
    rules first, the Break rules second and the Retry rules last: a status
    that a Skip rule has gives [None] whatever other rules have it; one that
    a Break rule has and no Skip rule gives SystemExit whatever Retry rule
    has it; only a status that neither has is retried.  With the rules of
    [table_overlap], 403 (skip, break and retry) is skipped and 500 (break
    and retry) ends the process.  The scan of the embedded list goes the
    other way about Skip: a Break entry gives the status even when Skip
    entries come before it. *)
Theorem C10_disposition_order :
  (forall (api_errors : gmap Z ErrorRule) (f : Q) (retries : nat)
          (raw r : response) (rest : list response),
     session_get api_errors raw = Ok r ->
     http_error (status_code r) ->
     let k := retry_loop api_errors f retries (raw :: rest) in
     (matches api_errors "skip" (status_code r) -> k = stop (Ok None)) /\
     (~ matches api_errors "skip" (status_code r) ->
      matches api_errors "break" (status_code r) -> k = stop (Raise SystemExit)) /\
     (~ matches api_errors "skip" (status_code r) ->
      ~ matches api_errors "break" (status_code r) ->
      matches api_errors "retry" (status_code r) -> (0 <= f)%Q ->
      k = slept (backoff f (S retries))
                (retry_loop api_errors f (S retries) rest))) /\
  (ended (_retry_wrapper table_overlap backoff_factor_0_09 [error_response 2 "m"])
   = Done (Ok None) /\
   ended (_retry_wrapper table_overlap backoff_factor_0_09 [error_response 5 "m"])
   = Done (Raise SystemExit)) /\
  (forall (api_errors : gmap Z ErrorRule) (r : response)
          (pre post : list pair) (p : pair) (rule : ErrorRule),
     has_execute_errors r (pre ++ p :: post) ->
     all_mapped api_errors (pre ++ p :: post) ->
     Forall (fun q => has_action api_errors "skip" q = true) pre ->
     rule_of api_errors p = Some rule -> action rule = "break" ->
     _handle_execute_errors api_errors r
     = Ok (set_status r (MatchedHTTPError rule) (snd p))).
Proof.
  split; [| split].
  - intros api_errors f retries raw r rest Hget He. cbv zeta. repeat split.
    + intros Hs. eapply iteration_skip; eassumption.
    + intros Hs Hb. eapply iteration_break; eassumption.
    + intros Hs Hb Hr Hf. eapply iteration_retry; eassumption.
  - split; vm_compute; reflexivity.
  - intros api_errors r pre post p rule Hr Hm Hskip Hp Hact.
    eapply execute_errors_first_break; try eassumption.
    apply Forall_app in Hm as [Hm _].
    unfold not_break. clear Hr.
    induction Hskip as [| q qs Hq _ IH]; [constructor |].
    inversion Hm as [| ? ? [rq Hrq] Hm']; subst.
    constructor; [| apply IH; exact Hm'].
    rewrite (has_action_rule _ "skip" _ _ Hrq) in Hq.
    rewrite (has_action_rule _ "break" _ _ Hrq).
    apply String.eqb_eq in Hq. rewrite Hq. reflexivity.
Qed.

Lemma C10_disposition_order_witness :
  retry_loop table_overlap backoff_factor_0_09 0
    [error_response 2 "m"; friends_response [7]] = stop (Ok None) /\
  _handle_execute_errors table_all
    (execute_errors_response [(JNum 200, JStr "s"); (JNum 300, JStr "b")])
  = Ok (set_status
          (execute_errors_response [(JNum 200, JStr "s"); (JNum 300, JStr "b")])
          400 (JStr "b")).
Proof.
  split.
  - apply (proj1 C10_disposition_order table_overlap backoff_factor_0_09 0%nat
             (error_response 2 "m")
             (set_status (error_response 2 "m") 403 (JStr "m"))
             [friends_response [7]]).
    + vm_compute. reflexivity.
    + unfold http_error. cbn. lia.
    + exists 1, (mkRule "skip" 403). vm_compute. repeat split; reflexivity.
  - apply (proj2 (proj2 C10_disposition_order) table_all
             (execute_errors_response [(JNum 200, JStr "s"); (JNum 300, JStr "b")])
             [(JNum 200, JStr "s")] [] (JNum 300, JStr "b") (mkRule "break" 400)).
    + eexists. split; reflexivity.
    + repeat constructor; eexists; vm_compute; reflexivity.
    + repeat constructor.
    + vm_compute. reflexivity.
    + reflexivity.
Defined.

(** * Further properties of the hooks *)

Lemma handle_execute_errors_body (api_errors : gmap Z ErrorRule) (r x : response) :
  _handle_execute_errors api_errors r = Ok x ->
  body x = body r /\ exists j, body r = Some j.
Proof.
  unfold _handle_execute_errors. intros H.
  destruct (execute_errors_body api_errors r) as [r1 | e] eqn:Hb.
  - injection H as <-. apply execute_errors_body_body in Hb. exact Hb.
  - destruct e; try discriminate. injection H as <-. split; [reflexivity |].
    unfold execute_errors_body, r_json in Hb.
    destruct (body r) as [j |]; [eauto | discriminate].
Qed.

Lemma set_status_body_eq (r r' : response) (st : Z) (msg : json) :
  body r = body r' -> set_status r st msg = set_status r' st msg.
Proof. unfold set_status. intros ->. reflexivity. Qed.

Lemma handle_api_errors_cases (api_errors : gmap Z ErrorRule) (r : response) :
  _handle_api_errors api_errors r = Ok r \/
  exists (j e code msg : json) (rule : ErrorRule),
    body r = Some j /\ getitem j "error" = Ok e /\
    getitem e "error_code" = Ok code /\ getitem e "error_msg" = Ok msg /\
    table_getitem api_errors code = Ok rule /\
    _handle_api_errors api_errors r = Ok (set_status r (MatchedHTTPError rule) msg).
Proof.
  unfold _handle_api_errors.
  destruct (api_errors_body api_errors r) as [r' | ex] eqn:Hb; [| left; reflexivity].
  right. unfold api_errors_body in Hb.
  apply bind_Ok in Hb as (j & Hj & Hb).
  apply bind_Ok in Hb as (e & He & Hb).
  apply bind_Ok in Hb as (err_code & Hc & Hb).
  apply bind_Ok in Hb as (j' & Hj' & Hb).
  apply bind_Ok in Hb as (e' & He' & Hb).
  apply bind_Ok in Hb as (err_msg & Hm & Hb).
  apply bind_Ok in Hb as (known & _ & Hb).
  destruct (negb known); [discriminate |].
  apply bind_Ok in Hb as (rule & Hrule & Hb). injection Hb as <-.
  assert (j' = j) by congruence. subst j'.
  assert (e' = e) by congruence. subst e'.
  exists j, e, err_code, err_msg, rule.
  unfold r_json in Hj. destruct (body r) as [b |]; [| discriminate].
  injection Hj as ->. auto 10.
Qed.

Lemma table_contains_getitem (api_errors : gmap Z ErrorRule) (code : json)
    (rule : ErrorRule) :
  table_getitem api_errors code = Ok rule -> table_contains api_errors code = Ok true.
Proof.
  unfold table_getitem, table_contains. destruct (key_of code); try discriminate.
  destruct (api_errors !! z) as [x |] eqn:Hz; [| discriminate]. intros _.
  rewrite bool_decide_eq_true_2 by eauto. reflexivity.
Qed.

(** X1.  [_handle_api_errors] never raises, and what it returns is decided
    by one condition: the body is JSON, it has under [error] a value with
    the fields [error_code] and [error_msg], and the code is a key of the
    table.  When the condition holds, the response comes back with the
    status of the rule of that code and the message as its reason; when it
    does not hold, the response comes back as it was. *)
Theorem handle_api_errors_result (api_errors : gmap Z ErrorRule) (r : response) :
  (forall (j e code msg : json) (rule : ErrorRule),
     body r = Some j -> getitem j "error" = Ok e ->
     getitem e "error_code" = Ok code -> getitem e "error_msg" = Ok msg ->
     table_getitem api_errors code = Ok rule ->
     _handle_api_errors api_errors r
     = Ok (set_status r (MatchedHTTPError rule) msg)) /\
  ((forall (j e code msg : json) (rule : ErrorRule),
      body r = Some j -> getitem j "error" = Ok e ->
      getitem e "error_code" = Ok code -> getitem e "error_msg" = Ok msg ->
      table_getitem api_errors code = Ok rule -> False) ->
   _handle_api_errors api_errors r = Ok r).
Proof.
  split.
  - intros j e code msg rule Hb He Hc Hm Hrule.
    unfold _handle_api_errors, api_errors_body, r_json. rewrite Hb. cbn [bind].
    rewrite He. cbn [bind]. rewrite Hc. cbn [bind]. rewrite Hm. cbn [bind].
    rewrite (table_contains_getitem _ _ _ Hrule). cbn [bind negb].
    rewrite Hrule. reflexivity.
  - intros Hno.
    destruct (handle_api_errors_cases api_errors r)
      as [H | (j & e & code & msg & rule & Hb & He & Hc & Hm & Hrule & _)];
      [exact H |].
    exfalso. eapply Hno; eassumption.
Qed.

Lemma handle_api_errors_result_witness :
  _handle_api_errors table_all
    (http_200 (JObj [("error", JObj [("error_code", JNum 200);
                                     ("error_msg", JStr "s");
                                     ("request_params", JArr [])])]))
  = Ok (set_status
          (http_200 (JObj [("error", JObj [("error_code", JNum 200);
                                           ("error_msg", JStr "s");
                                           ("request_params", JArr [])])]))
          404 (JStr "s")) /\
  _handle_api_errors table_all (friends_response [7]) = Ok (friends_response [7]).
Proof.
  split.
  - apply (proj1 (handle_api_errors_result table_all
                    (http_200 (JObj [("error", JObj [("error_code", JNum 200);
                                                     ("error_msg", JStr "s");
                                                     ("request_params", JArr [])])])))
             (JObj [("error", JObj [("error_code", JNum 200);
                                    ("error_msg", JStr "s");
                                    ("request_params", JArr [])])])
             (JObj [("error_code", JNum 200); ("error_msg", JStr "s");
                    ("request_params", JArr [])])
             (JNum 200) (JStr "s") (mkRule "skip" 404)); reflexivity.
  - apply (proj2 (handle_api_errors_result table_all (friends_response [7]))).
    intros j e code msg rule Hb He. injection Hb as <-. discriminate He.
Defined.

(** X2.  A top-level error whose code the table has: whatever
    [_handle_execute_errors] did to the response before (a status taken
    from a Break entry included), provided it returned, [s.get] gives the
    response with the status of the rule of the top-level code and its
    message. *)
Theorem top_level_error_overrides (api_errors : gmap Z ErrorRule)
    (raw r1 : response) (code : Z) (msg : json) (rule : ErrorRule) :
  has_error raw (JNum code, msg) ->
  api_errors !! code = Some rule ->
  _handle_execute_errors api_errors raw = Ok r1 ->
  session_get api_errors raw = Ok (set_status raw (MatchedHTTPError rule) msg).
Proof.
  intros (kvs & Hb & He) Hlk H1. unfold session_get. rewrite H1. cbn [bind].
  apply handle_execute_errors_body in H1 as [Hb1 _].
  rewrite (handle_api_errors_mapped api_errors r1 code msg rule).
  - f_equal. apply set_status_body_eq. exact Hb1.
  - exists kvs. split; [congruence | exact He].
  - exact Hlk.
Qed.

Lemma top_level_error_overrides_witness :
  let raw := http_200 (JObj [("execute_errors", JArr [err_obj (JNum 300, JStr "b")]);
                             ("error", err_obj (JNum 200, JStr "s"))]) in
  session_get table_all raw = Ok (set_status raw 404 (JStr "s")).
Proof.
  cbv zeta.
  apply (top_level_error_overrides table_all
           (http_200 (JObj [("execute_errors", JArr [err_obj (JNum 300, JStr "b")]);
                            ("error", err_obj (JNum 200, JStr "s"))]))
           (set_status
              (http_200 (JObj [("execute_errors", JArr [err_obj (JNum 300, JStr "b")]);
                               ("error", err_obj (JNum 200, JStr "s"))]))
              400 (JStr "b"))
           200 (JStr "s") (mkRule "skip" 404)).
  - eexists. split; reflexivity.
  - vm_compute. reflexivity.
  - vm_compute. reflexivity.
Defined.

(** X3.  The hooks assign the status and the reason only: what [s.get]
    returns has the body that the transport received, and that body is
    JSON (so that the [r.json()] of line 163 cannot raise). *)
Theorem session_get_keeps_body (api_errors : gmap Z ErrorRule) (raw r : response) :
  session_get api_errors raw = Ok r ->
  body r = body raw /\ exists j, body raw = Some j.
Proof.
  unfold session_get. intros H. apply bind_Ok in H as (r1 & H1 & H2).
  apply handle_execute_errors_body in H1 as [Hb1 Hj].
  apply handle_api_errors_body in H2. split; [congruence | exact Hj].
Qed.

Lemma session_get_keeps_body_witness :
  body (set_status (error_response 100 "m") 503 (JStr "m"))
  = body (error_response 100 "m") /\
  exists j, body (error_response 100 "m") = Some j.
Proof.
  apply (session_get_keeps_body table_retry (error_response 100 "m")
           (set_status (error_response 100 "m") 503 (JStr "m"))).
  vm_compute. reflexivity.
Defined.

(** X4.  A response whose body is a JSON object with neither
    [execute_errors] nor [error] goes through both hooks unchanged, whatever
    the table and whatever its status. *)
Theorem hooks_no_op_without_error_fields (api_errors : gmap Z ErrorRule)
    (r : response) :
  no_error_fields r ->
  _handle_execute_errors api_errors r = Ok r /\
  _handle_api_errors api_errors r = Ok r /\
  session_get api_errors r = Ok r.
Proof.
  intros Hno. pose proof Hno as (kvs & Hb & He & Ha).
  split; [eapply handle_execute_errors_no_field; eassumption |].
  split; [| apply session_get_no_error_fields; exact Hno].
  apply handle_api_errors_no_field. intros kvs' Hb'. congruence.
Qed.

Lemma hooks_no_op_without_error_fields_witness :
  session_get table_all (friends_response [7; 8]) = Ok (friends_response [7; 8]).
Proof.
  apply (hooks_no_op_without_error_fields table_all (friends_response [7; 8])).
  eexists. split; [reflexivity |]. split; reflexivity.
Defined.

(** * Further properties of the scan of [execute_errors] *)

Lemma find_split {A : Type} (f : A -> bool) (l : list A) (x : A) :
  List.find f l = Some x ->
  exists pre post : list A,
    l = (pre ++ x :: post)%list /\ Forall (fun y => f y = false) pre /\ f x = true.
Proof.
  induction l as [| y l IH]; [discriminate |].
  cbn [List.find]. destruct (f y) eqn:Hy.
  - intros [= ->]. exists [], l. auto.
  - intros H. destruct (IH H) as (pre & post & -> & Hpre & Hx).
    exists (y :: pre), post. auto.
Qed.

Lemma find_existsb {A : Type} (f : A -> bool) (l : list A) :
  existsb f l = true -> exists x, List.find f l = Some x.
Proof.
  induction l as [| y l IH]; [discriminate |].
  cbn [existsb List.find]. destruct (f y); [eauto | exact IH].
Qed.

(** X5.  When the list has an entry with a Break rule (and every code of
    the list is in the table), [_handle_execute_errors] does what the
    priority policy says: the response gets the status and the message of
    the first Break entry, wherever it stands in the list. *)
Theorem break_tier_agrees_with_policy (api_errors : gmap Z ErrorRule) (r : response)
    (err_pairs : list pair) :
  has_execute_errors r err_pairs ->
  all_mapped api_errors err_pairs ->
  existsb (has_action api_errors "break") err_pairs = true ->
  exists (st : Z) (msg : json),
    tiered_spec api_errors err_pairs = Some (st, msg) /\
    _handle_execute_errors api_errors r = Ok (set_status r st msg).
Proof.
  intros Hr Hm Hex.
  destruct (find_existsb _ _ Hex) as [p Hfind].
  destruct (find_split _ _ _ Hfind) as (pre & post & -> & Hpre & Hp).
  assert (Hrule : exists rule, rule_of api_errors p = Some rule).
  { unfold has_action in Hp. destruct (rule_of api_errors p); [eauto | discriminate]. }
  destruct Hrule as [rule Hrule].
  rewrite (has_action_rule _ _ _ _ Hrule) in Hp. apply String.eqb_eq in Hp.
  exists (MatchedHTTPError rule), (snd p). split.
  - unfold tiered_spec, first_with. rewrite Hfind, Hrule. reflexivity.
  - eapply execute_errors_first_break; eassumption.
Qed.

Lemma break_tier_agrees_with_policy_witness :
  let err_pairs : list pair :=
    [(JNum 100, JStr "r"); (JNum 300, JStr "b"); (JNum 200, JStr "s")] in
  exists (st : Z) (msg : json),
    tiered_spec table_all err_pairs = Some (st, msg) /\
    _handle_execute_errors table_all (execute_errors_response err_pairs)
    = Ok (set_status (execute_errors_response err_pairs) st msg).
Proof.
  cbv zeta.
  apply (break_tier_agrees_with_policy table_all
           (execute_errors_response
              [(JNum 100, JStr "r"); (JNum 300, JStr "b"); (JNum 200, JStr "s")])).
  - eexists. split; reflexivity.
  - repeat constructor; eexists; vm_compute; reflexivity.
  - vm_compute. reflexivity.
Defined.

(** X6.  When no entry of the list has a Break rule (and every code is in
    the table), the last entry alone decides, whatever stands before it:
    if its action is "retry" or "skip" the response gets its status and
    message; if it is anything else the assertion of line 54 fails. *)
Theorem no_break_last_entry_decides (api_errors : gmap Z ErrorRule) (r : response)
    (front : list pair) (p : pair) (rule : ErrorRule) :
  has_execute_errors r (front ++ [p]) ->
  all_mapped api_errors (front ++ [p]) ->
  not_break api_errors (front ++ [p]) ->
  rule_of api_errors p = Some rule ->
  (action rule = "retry" \/ action rule = "skip" ->
   _handle_execute_errors api_errors r
   = Ok (set_status r (MatchedHTTPError rule) (snd p))) /\
  (action rule <> "retry" -> action rule <> "skip" ->
   _handle_execute_errors api_errors r = Raise (AssertionError "Unexpected error")).
Proof.
  intros Hr Hm Hnb Hp.
  assert (Hl : last (front ++ [p]) = Some p) by apply last_snoc.
  pose proof (execute_errors_no_break api_errors r _ p rule Hr Hm Hnb Hl Hp) as H.
  split.
  - intros [Ha | Ha]; rewrite H, Ha; reflexivity.
  - intros Hn1 Hn2. rewrite H.
    apply String.eqb_neq in Hn1, Hn2. rewrite Hn1, Hn2. reflexivity.
Qed.

Lemma no_break_last_entry_decides_witness :
  _handle_execute_errors table_all
    (execute_errors_response [(JNum 100, JStr "r"); (JNum 200, JStr "s")])
  = Ok (set_status
          (execute_errors_response [(JNum 100, JStr "r"); (JNum 200, JStr "s")])
          404 (JStr "s")).
Proof.
  apply (proj1 (no_break_last_entry_decides table_all
                  (execute_errors_response [(JNum 100, JStr "r"); (JNum 200, JStr "s")])
                  [(JNum 100, JStr "r")] (JNum 200, JStr "s") (mkRule "skip" 404)
                  ltac:(eexists; split; reflexivity)
                  ltac:(repeat constructor; eexists; vm_compute; reflexivity)
                  ltac:(repeat constructor)
                  ltac:(vm_compute; reflexivity))).
  right. reflexivity.
Defined.

(** X7.  An empty [execute_errors] list is not a no-op: none of the three
    loops runs, the assertion of line 54 fails, and the AssertionError
    leaves the hook, [s.get] and the loop at that attempt, whatever the
    table. *)
Theorem empty_execute_errors_asserts (api_errors : gmap Z ErrorRule) (f : Q)
    (retries : nat) (raw : response) (rest : list response) :
  has_execute_errors raw [] ->
  _handle_execute_errors api_errors raw = Raise (AssertionError "Unexpected error") /\
  retry_loop api_errors f retries (raw :: rest)
  = stop (Raise (AssertionError "Unexpected error")).
Proof.
  intros (kvs & Hb & He).
  assert (H : _handle_execute_errors api_errors raw
              = Raise (AssertionError "Unexpected error")).
  { unfold _handle_execute_errors, execute_errors_body, r_json, getitem.
    rewrite Hb. cbn [bind]. rewrite He. reflexivity. }
  split; [exact H |].
  apply iteration_raise. unfold session_get. rewrite H. reflexivity.
Qed.

Lemma empty_execute_errors_asserts_witness :
  retry_loop table_all backoff_factor_0_09 0 [execute_errors_response []]
  = stop (Raise (AssertionError "Unexpected error")).
Proof.
  apply (empty_execute_errors_asserts table_all backoff_factor_0_09 0
           (execute_errors_response []) []).
  eexists. split; reflexivity.
Defined.

(** X8.  One entry of the list: when its code is in the table with one of
    the three actions, the hook and the priority policy agree, and the
    response gets the status and the message of that entry. *)
Theorem single_entry_agrees_with_policy (api_errors : gmap Z ErrorRule)
    (r : response) (p : pair) (rule : ErrorRule) :
  has_execute_errors r [p] ->
  rule_of api_errors p = Some rule ->
  action rule = "break" \/ action rule = "retry" \/ action rule = "skip" ->
  tiered_spec api_errors [p] = Some (MatchedHTTPError rule, snd p) /\
  _handle_execute_errors api_errors r
  = Ok (set_status r (MatchedHTTPError rule) (snd p)).
Proof.
  intros Hr Hp Hact.
  assert (Hm : all_mapped api_errors [p]) by (repeat constructor; eauto).
  split.
  - unfold tiered_spec, first_with. cbn [List.find].
    rewrite !(has_action_rule _ _ _ _ Hp).
    destruct Hact as [Ha | [Ha | Ha]]; rewrite Ha; cbn; rewrite Hp; reflexivity.
  - destruct (String.eqb (action rule) "break") eqn:Hb.
    + apply String.eqb_eq in Hb.
      apply (execute_errors_first_break api_errors r [] [] p rule);
        try assumption. constructor.
    + rewrite (execute_errors_no_break api_errors r [p] p rule);
        try assumption; try reflexivity.
      * destruct Hact as [Ha | [Ha | Ha]]; rewrite Ha in *;
          [discriminate | reflexivity | reflexivity].
      * repeat constructor. rewrite (has_action_rule _ _ _ _ Hp). exact Hb.
Qed.

Lemma single_entry_agrees_with_policy_witness :
  tiered_spec table_all [(JNum 100, JStr "r")] = Some (503, JStr "r") /\
  _handle_execute_errors table_all (execute_errors_response [(JNum 100, JStr "r")])
  = Ok (set_status (execute_errors_response [(JNum 100, JStr "r")]) 503 (JStr "r")).
Proof.
  apply (single_entry_agrees_with_policy table_all
           (execute_errors_response [(JNum 100, JStr "r")])
           (JNum 100, JStr "r") (mkRule "retry" 503)).
  - eexists. split; reflexivity.
  - vm_compute. reflexivity.
  - right. left. reflexivity.
Defined.

(** X9.  A code that the table does not have hides the whole list: when
    the entries before it are in the table (Break entries included), the
    hook returns the response as it came; with no [error] field in the
    body, [s.get] does too. *)
Theorem unmapped_code_hides_the_list (api_errors : gmap Z ErrorRule) (r : response)
    (pre post : list pair) (code : Z) (msg : json) :
  has_execute_errors r (pre ++ (JNum code, msg) :: post) ->
  all_mapped api_errors pre ->
  api_errors !! code = None ->
  _handle_execute_errors api_errors r = Ok r /\
  ((forall kvs, body r = Some (JObj kvs) -> assoc "error" kvs = None) ->
   session_get api_errors r = Ok r).
Proof.
  intros Hr Hpre Hlk.
  assert (H : _handle_execute_errors api_errors r = Ok r).
  { eapply execute_errors_unmapped; [exact Hr | exact Hpre |].
    unfold table_getitem. cbn [fst key_of]. rewrite Hlk. reflexivity. }
  split; [exact H |].
  intros Hno. unfold session_get. rewrite H. cbn [bind].
  apply handle_api_errors_no_field. exact Hno.
Qed.

Lemma unmapped_code_hides_the_list_witness :
  _handle_execute_errors table_all
    (execute_errors_response [(JNum 300, JStr "b"); (JNum 999, JStr "u")])
  = Ok (execute_errors_response [(JNum 300, JStr "b"); (JNum 999, JStr "u")]).
Proof.
  refine (proj1 (unmapped_code_hides_the_list table_all
           (execute_errors_response [(JNum 300, JStr "b"); (JNum 999, JStr "u")])
           [(JNum 300, JStr "b")] [] 999 (JStr "u") _ _ _)).
  - eexists. split; reflexivity.
  - repeat constructor; eexists; vm_compute; reflexivity.
  - vm_compute. reflexivity.
Defined.

(** * The exceptions of the hooks and of the loop *)

Lemma getitem_raise (v : json) (k : string) (e : exn) :
  getitem v k = Raise e -> e = KeyError \/ e = TypeError.
Proof.
  unfold getitem. destruct v; try (intros [= <-]; auto).
  destruct (assoc k kvs); [discriminate | intros [= <-]; auto].
Qed.

Lemma iter_raise (v : json) (e : exn) : iter v = Raise e -> e = TypeError.
Proof. destruct v; cbn [iter]; intros [= <-] || discriminate; reflexivity. Qed.

Lemma table_getitem_raise (api_errors : gmap Z ErrorRule) (code : json) (e : exn) :
  table_getitem api_errors code = Raise e -> e = KeyError \/ e = TypeError.
Proof.
  unfold table_getitem. destruct (key_of code).
  - destruct (api_errors !! z); [discriminate | intros [= <-]; auto].
  - intros [= <-]; auto.
  - intros [= <-]; auto.
Qed.

Lemma bind_Raise {A B : Type} (m : result A) (k : A -> result B) (e : exn) :
  bind m k = Raise e -> m = Raise e \/ exists a, m = Ok a /\ k a = Raise e.
Proof. destruct m as [a | e']; cbn [bind]; [eauto | intros [= <-]; auto]. Qed.

Lemma mapM_raise {A B : Type} (P : exn -> Prop) (f : A -> result B) (l : list A)
    (e : exn) :
  (forall x e', f x = Raise e' -> P e') -> mapM f l = Raise e -> P e.
Proof.
  intros Hf. induction l as [| x l IH]; [discriminate |].
  cbn [mapM]. intros H. apply bind_Raise in H as [H | (y & _ & H)]; [eauto |].
  apply bind_Raise in H as [H | (ys & _ & H)]; [auto | discriminate].
Qed.

Lemma scan_break_raise (api_errors : gmap Z ErrorRule) (r : response)
    (err_pairs : list pair) (cur : option pair) (e : exn) :
  scan_break api_errors r err_pairs cur = Raise e -> e = KeyError \/ e = TypeError.
Proof.
  revert cur. induction err_pairs as [| [c m] ps IH]; intros cur; [discriminate |].
  cbn [scan_break]. intros H.
  apply bind_Raise in H as [H | (rule & _ & H)];
    [eapply table_getitem_raise; exact H |].
  destruct (String.eqb (action rule) "break"); [discriminate | eapply IH; exact H].
Qed.

(** After the first loop [err_code] is bound unless the list is empty. *)
Lemma scan_break_bound (api_errors : gmap Z ErrorRule) (r : response)
    (err_pairs : list pair) (cur cur' : option pair) :
  scan_break api_errors r err_pairs cur = Ok (inr cur') ->
  err_pairs = [] \/ exists p, cur' = Some p.
Proof.
  revert cur. induction err_pairs as [| [c m] ps IH]; intros cur; [auto |].
  cbn [scan_break]. intros H. right.
  apply bind_Ok in H as (rule & _ & H).
  destruct (String.eqb (action rule) "break"); [discriminate |].
  destruct (IH _ H) as [-> | Hp]; [| exact Hp].
  cbn [scan_break] in H. injection H as <-. eauto.
Qed.

Lemma scan_stale_raise (api_errors : gmap Z ErrorRule) (r : response) (act : string)
    (err_pairs : list pair) (p : pair) (e : exn) :
  scan_stale api_errors r act err_pairs (Some p) = Raise e ->
  e = KeyError \/ e = TypeError.
Proof.
  induction err_pairs as [| [c m] ps IH]; [discriminate |].
  cbn [scan_stale]. destruct p as [c' m']. intros H.
  apply bind_Raise in H as [H | (rule & _ & H)];
    [eapply table_getitem_raise; exact H |].
  destruct (String.eqb (action rule) act); [discriminate | apply IH; exact H].
Qed.

Lemma scan_stale_after_break (api_errors : gmap Z ErrorRule) (r : response)
    (act : string) (err_pairs : list pair) (cur : option pair) (e : exn) :
  err_pairs = [] \/ (exists p, cur = Some p) ->
  scan_stale api_errors r act err_pairs cur = Raise e ->
  e = KeyError \/ e = TypeError.
Proof.
  intros [-> | [p ->]]; [discriminate | apply scan_stale_raise].
Qed.

Lemma execute_errors_body_raise_cases (api_errors : gmap Z ErrorRule)
    (r : response) (e : exn) :
  execute_errors_body api_errors r = Raise e ->
  (e = JSONDecodeError /\ body r = None) \/ e = KeyError \/ e = TypeError \/
  e = AssertionError "Unexpected error".
Proof.
  unfold execute_errors_body. intros H.
  apply bind_Raise in H as [H | (j & _ & H)].
  { unfold r_json in H. destruct (body r); [discriminate | injection H as <-; auto]. }
  right.
  apply bind_Raise in H as [H | (errors & _ & H)].
  { apply getitem_raise in H. tauto. }
  apply bind_Raise in H as [H | (errs & _ & H)].
  { apply iter_raise in H. auto. }
  apply bind_Raise in H as [H | (err_pairs & _ & H)].
  { enough (e = KeyError \/ e = TypeError) by tauto.
    revert H. apply (mapM_raise (fun x => x = KeyError \/ x = TypeError)).
    intros err e' He. unfold entry_of in He.
    apply bind_Raise in He as [He | (c & _ & He)]; [eapply getitem_raise; exact He |].
    apply bind_Raise in He as [He | (m & _ & He)];
      [eapply getitem_raise; exact He | discriminate]. }
  apply bind_Raise in H as [H | (actions & _ & H)].
  { enough (e = KeyError \/ e = TypeError) by tauto.
    revert H. apply (mapM_raise (fun x => x = KeyError \/ x = TypeError)).
    intros p e' He.
    apply bind_Raise in He as [He | (c & _ & He)];
      [eapply table_getitem_raise; exact He | discriminate]. }
  apply bind_Raise in H as [H | (http_errors & _ & H)].
  { enough (e = KeyError \/ e = TypeError) by tauto.
    revert H. apply (mapM_raise (fun x => x = KeyError \/ x = TypeError)).
    intros p e' He.
    apply bind_Raise in He as [He | (c & _ & He)];
      [eapply table_getitem_raise; exact He | discriminate]. }
  apply bind_Raise in H as [H | (b & Hb & H)].
  { apply scan_break_raise in H. tauto. }
  destruct b as [r' | cur]; [discriminate |].
  apply scan_break_bound in Hb.
  apply bind_Raise in H as [H | (t & _ & H)].
  { apply (scan_stale_after_break _ _ _ _ _ _ Hb) in H. tauto. }
  destruct t as [r' |]; [discriminate |].
  apply bind_Raise in H as [H | (s & _ & H)].
  { apply (scan_stale_after_break _ _ _ _ _ _ Hb) in H. tauto. }
  destruct s as [r' |]; [discriminate |]. injection H as <-. auto.
Qed.

Lemma execute_errors_body_raise (api_errors : gmap Z ErrorRule) (r : response)
    (e : exn) :
  execute_errors_body api_errors r = Raise e ->
  e = JSONDecodeError \/ e = KeyError \/ e = TypeError \/
  e = AssertionError "Unexpected error".
Proof. intros H. apply execute_errors_body_raise_cases in H. tauto. Qed.

Lemma session_get_raise (api_errors : gmap Z ErrorRule) (raw : response) (e : exn) :
  session_get api_errors raw = Raise e ->
  e = JSONDecodeError \/ e = TypeError \/ e = AssertionError "Unexpected error".
Proof.
  unfold session_get. intros H. apply bind_Raise in H as [H | (r1 & _ & H)].
  - unfold _handle_execute_errors in H.
    destruct (execute_errors_body api_errors raw) as [r1 | e'] eqn:Hb;
      [discriminate |].
    apply execute_errors_body_raise in Hb.
    destruct e'; try discriminate; injection H as <-;
      destruct Hb as [Hb | [Hb | [Hb | Hb]]]; try discriminate; auto.
  - destruct (handle_api_errors_total api_errors r1) as [r2 Hr2]. congruence.
Qed.

(** One iteration, by cases. *)
Lemma retry_loop_cons_cases (api_errors : gmap Z ErrorRule) (f : Q) (n : nat)
    (raw : response) (rest : list response) :
  let k := retry_loop api_errors f n (raw :: rest) in
  (exists e, session_get api_errors raw = Raise e /\ k = stop (Raise e)) \/
  (exists r, session_get api_errors raw = Ok r /\ ~ http_error (status_code r) /\
             k = stop (Ok (Some r))) \/
  (exists r, session_get api_errors raw = Ok r /\ http_error (status_code r) /\
             (k = stop (Ok None) \/
              k = stop (Raise SystemExit) \/
              k = stop (Raise (SystemExitErr (status_code r))) \/
              ((backoff f (S n) < 0)%Q /\ k = stop (Raise ValueError)) \/
              k = slept (backoff f (S n)) (retry_loop api_errors f (S n) rest))).
Proof.
  cbv zeta. destruct (session_get api_errors raw) as [r | e] eqn:Hget.
  - right. destruct (raise_for_status_cases r) as [[Hok Hs] | [Herr Hs]].
    + left. exists r. split; [reflexivity |]. split; [exact Hs |].
      eapply iteration_success; eassumption.
    + right. exists r. split; [reflexivity |]. split; [exact Hs |].
      cbn [retry_loop]. rewrite Hget, Herr.
      destruct (status_in _ (statuses_of api_errors "skip")); [auto |].
      destruct (status_in _ (statuses_of api_errors "break")); [auto |].
      destruct (status_in _ (statuses_of api_errors "retry")); [| auto].
      unfold time_sleep. destruct (Qlt_le_dec (backoff f (S n)) 0); auto 10.
  - left. exists e. split; [reflexivity |]. apply iteration_raise. exact Hget.
Qed.

(** * Further properties of the loop *)

Lemma retry_loop_raise (api_errors : gmap Z ErrorRule) (f : Q) (n : nat)
    (transport : list response) (e : exn) :
  ended (retry_loop api_errors f n transport) = Done (Raise e) ->
  loop_exn e /\
  e <> KeyError /\ e <> NameError /\ (forall st, e <> HTTPError st) /\
  ((0 <= f)%Q -> e <> ValueError).
Proof.
  revert n. induction transport as [| raw rest IH]; intros n H; [discriminate |].
  destruct (retry_loop_cons_cases api_errors f n raw rest)
    as [(e0 & Hget & Hk) | [(r & Hget & Hs & Hk) | (r & Hget & Hs & Hk)]].
  - rewrite Hk in H. injection H as <-. apply session_get_raise in Hget.
    unfold loop_exn.
    destruct Hget as [-> | [-> | ->]]; repeat split; auto; try discriminate;
      intros; discriminate.
  - rewrite Hk in H. discriminate.
  - destruct Hk as [Hk | [Hk | [Hk | [[Hneg Hk] | Hk]]]]; rewrite Hk in H.
    + discriminate.
    + injection H as <-. unfold loop_exn. repeat split; auto 10; try discriminate;
        intros; discriminate.
    + injection H as <-. unfold loop_exn. repeat split; eauto 10; try discriminate;
        intros; discriminate.
    + injection H as <-. unfold loop_exn. repeat split; auto 10; try discriminate;
        try (intros; discriminate).
      intros Hf _. apply (Qlt_not_le _ _ Hneg). apply backoff_nonneg. exact Hf.
    + cbn [slept ended] in H. apply (IH _ H).
Qed.



(** X11.  What [_retry_wrapper] returns, when it returns a response, is
    what [s.get] gave for one of the responses of the transport; its status
    is outside 400..599 and its body is JSON. *)
Theorem returned_response_invariant (api_errors : gmap Z ErrorRule) (f : Q)
    (transport : list response) (r : response) :
  ended (_retry_wrapper api_errors f transport) = Done (Ok (Some r)) ->
  ~ http_error (status_code r) /\
  (exists j, body r = Some j) /\
  exists raw, In raw transport /\ session_get api_errors raw = Ok r.
Proof.
  unfold _retry_wrapper. generalize 0%nat as n.
  induction transport as [| raw rest IH]; intros n H; [discriminate |].
  destruct (retry_loop_cons_cases api_errors f n raw rest)
    as [(e0 & Hget & Hk) | [(r' & Hget & Hs & Hk) | (r' & Hget & Hs & Hk)]].
  - rewrite Hk in H. discriminate.
  - rewrite Hk in H. injection H as <-. split; [exact Hs |].
    split; [eapply session_get_body; exact Hget |].
    exists raw. split; [left; reflexivity | exact Hget].
  - destruct Hk as [Hk | [Hk | [Hk | [[_ Hk] | Hk]]]]; rewrite Hk in H;
      try discriminate.
    cbn [slept ended] in H. destruct (IH _ H) as (H1 & H2 & raw' & Hin & H3).
    split; [exact H1 |]. split; [exact H2 |].
    exists raw'. split; [right; exact Hin | exact H3].
Qed.

Lemma returned_response_invariant_witness :
  ~ http_error (status_code (friends_response [7])) /\
  (exists j, body (friends_response [7]) = Some j) /\
  exists raw, In raw [error_response 100 "m"; friends_response [7]] /\
              session_get table_retry raw = Ok (friends_response [7]).
Proof.
  apply (returned_response_invariant table_retry backoff_factor_0_09
           [error_response 100 "m"; friends_response [7]] (friends_response [7])).
  vm_compute. reflexivity.
Defined.

(** X12.  Once the loop has ended it reads nothing more: the run is the
    same whatever the transport would have answered afterwards. *)
Theorem ended_run_ignores_later_responses (api_errors : gmap Z ErrorRule) (f : Q)
    (transport later : list response) (x : result (option response)) :
  ended (_retry_wrapper api_errors f transport) = Done x ->
  _retry_wrapper api_errors f (transport ++ later)
  = _retry_wrapper api_errors f transport.
Proof.
  unfold _retry_wrapper. generalize 0%nat as n.
  induction transport as [| raw rest IH]; intros n H; [discriminate |].
  cbn [app]. cbn [retry_loop] in H |- *.
  destruct (session_get api_errors raw) as [r | e]; [| reflexivity].
  destruct (raise_for_status r) as [[] | e]; [reflexivity |].
  destruct e; try reflexivity.
  destruct (status_in status (statuses_of api_errors "skip")); [reflexivity |].
  destruct (status_in status (statuses_of api_errors "break")); [reflexivity |].
  destruct (status_in status (statuses_of api_errors "retry")); [| reflexivity].
  destruct (time_sleep (backoff f (S n))); [| reflexivity].
  cbn [slept ended] in H. rewrite (IH _ H). reflexivity.
Qed.

Lemma ended_run_ignores_later_responses_witness :
  _retry_wrapper table_skip backoff_factor_0_09
    ([error_response 200 "m"] ++ [friends_response [7]])
  = _retry_wrapper table_skip backoff_factor_0_09 [error_response 200 "m"].
Proof.
  apply (ended_run_ignores_later_responses table_skip backoff_factor_0_09
           [error_response 200 "m"] [friends_response [7]] (Ok None)).
  vm_compute. reflexivity.
Defined.

Lemma attempts_bound (api_errors : gmap Z ErrorRule) (f : Q) (n : nat)
    (transport : list response) :
  let k := retry_loop api_errors f n transport in
  (attempts k <= List.length transport)%nat /\
  (forall m, ended k = Pending m -> attempts k = List.length transport).
Proof.
  revert n. induction transport as [| raw rest IH]; intros n;
    [cbn; split; [lia | reflexivity] |].
  cbv zeta. cbn [retry_loop List.length].
  destruct (session_get api_errors raw) as [r | e];
    [| cbn; split; [lia | discriminate]].
  destruct (raise_for_status r) as [[] | e]; [cbn; split; [lia | discriminate] |].
  destruct e; try (cbn; split; [lia | discriminate]).
  destruct (status_in status (statuses_of api_errors "skip"));
    [cbn; split; [lia | discriminate] |].
  destruct (status_in status (statuses_of api_errors "break"));
    [cbn; split; [lia | discriminate] |].
  destruct (status_in status (statuses_of api_errors "retry"));
    [| cbn; split; [lia | discriminate]].
  destruct (time_sleep (backoff f (S n))); [| cbn; split; [lia | discriminate]].
  destruct (IH (S n)) as [IH1 IH2]. cbn [slept ended attempts].
  split; [lia |]. intros m Hm. f_equal. eapply IH2. exact Hm.
Qed.

(** X13.  The count of a run: it never makes more attempts than the
    transport has responses; a run that has ended made one attempt more
    than it slept, and a run that is still going has used every response,
    slept after each of them, and [retries] is their number. *)
Theorem attempts_and_sleeps (api_errors : gmap Z ErrorRule) (f : Q)
    (transport : list response) :
  let k := _retry_wrapper api_errors f transport in
  (attempts k <= List.length transport)%nat /\
  (forall x, ended k = Done x -> attempts k = S (List.length (sleeps k))) /\
  (forall m, ended k = Pending m ->
     m = List.length transport /\
     attempts k = List.length transport /\
     List.length (sleeps k) = List.length transport).
Proof.
  cbv zeta. unfold _retry_wrapper.
  pose proof (attempts_sleeps api_errors f 0 transport) as Hs.
  destruct (attempts_bound api_errors f 0 transport) as [Hle Hp].
  cbv zeta in Hs, Hle, Hp.
  split; [exact Hle |]. split.
  - intros x Hx. rewrite Hx in Hs. exact Hs.
  - intros m Hm. rewrite Hm in Hs. destruct Hs as [Hs1 Hs2].
    specialize (Hp m Hm). repeat split; lia.
Qed.

Lemma attempts_and_sleeps_witness :
  attempts (_retry_wrapper table_retry backoff_factor_0_09
              [error_response 100 "m"; friends_response [7]])
  = S (List.length (sleeps (_retry_wrapper table_retry backoff_factor_0_09
                              [error_response 100 "m"; friends_response [7]]))).
Proof.
  apply (proj1 (proj2 (attempts_and_sleeps table_retry backoff_factor_0_09
                         [error_response 100 "m"; friends_response [7]]))
           (Ok (Some (friends_response [7])))).
  vm_compute. reflexivity.
Defined.

Lemma sum_backoff (f : Q) (s n : nat) :
  (fold_right Qplus 0 (map (backoff f) (seq s n))
   == f * inject_Z (2 ^ Z.of_nat (s + n) - 2 ^ Z.of_nat s))%Q.
Proof.
  revert s. induction n as [| n IH]; intros s.
  - cbn [seq map fold_right]. rewrite Nat.add_0_r, Z.sub_diag.
    unfold inject_Z. ring.
  - cbn [seq map fold_right]. rewrite IH. unfold backoff.
    rewrite <- Qmult_plus_distr_r, <- inject_Z_plus.
    replace (S s + n)%nat with (s + S n)%nat by lia.
    replace (2 ^ Z.of_nat (S s)) with (2 * 2 ^ Z.of_nat s)
      by (rewrite Nat2Z.inj_succ, Z.pow_succ_r by lia; reflexivity).
    replace (2 ^ Z.of_nat s + (2 ^ Z.of_nat (s + S n) - 2 * 2 ^ Z.of_nat s))
      with (2 ^ Z.of_nat (s + S n) - 2 ^ Z.of_nat s) by ring.
    reflexivity.
Qed.

(** X14.  The time that a run spent sleeping is
    [backoff_factor * (2 ^ (k + 1) - 2)], [k] being the number of its
    waits: the waits double from [2 * backoff_factor] on. *)
Theorem total_wait_closed_form (api_errors : gmap Z ErrorRule) (f : Q)
    (transport : list response) :
  let k := _retry_wrapper api_errors f transport in
  (total_wait k
   == f * inject_Z (2 ^ (Z.of_nat (List.length (sleeps k)) + 1) - 2))%Q.
Proof.
  cbv zeta. unfold total_wait, _retry_wrapper.
  rewrite sleeps_backoff at 1. rewrite sum_backoff.
  replace (Z.of_nat (1 + List.length (sleeps (retry_loop api_errors f 0 transport))))
    with (Z.of_nat (List.length (sleeps (retry_loop api_errors f 0 transport))) + 1)
    by lia.
  reflexivity.
Qed.

(** * From the embedded code to the disposition *)

Lemma session_get_only_error (api_errors : gmap Z ErrorRule) (raw : response)
    (code : Z) (msg : json) (rule : ErrorRule) :
  only_error raw (JNum code, msg) -> api_errors !! code = Some rule ->
  session_get api_errors raw = Ok (set_status raw (MatchedHTTPError rule) msg).
Proof.
  intros (kvs & Hb & He & Ha) Hlk. unfold session_get.
  rewrite (handle_execute_errors_no_field _ _ _ Hb He). cbn [bind].
  apply (handle_api_errors_mapped _ _ code msg rule); [| exact Hlk].
  exists kvs. auto.
Qed.

(** X15.  A rule is acted upon only if its [MatchedHTTPError] is a status
    on which [raise_for_status] raises: for a top-level error whose rule has
    a status outside 400..599, the loop returns the response as a success,
    with that status, whatever the action of the rule (Break included) and
    with no wait. *)
Theorem rule_outside_error_range_is_ignored (api_errors : gmap Z ErrorRule) (f : Q)
    (retries : nat) (raw : response) (rest : list response)
    (code : Z) (msg : json) (rule : ErrorRule) :
  only_error raw (JNum code, msg) ->
  api_errors !! code = Some rule ->
  ~ http_error (MatchedHTTPError rule) ->
  retry_loop api_errors f retries (raw :: rest)
  = {| ended := Done (Ok (Some (set_status raw (MatchedHTTPError rule) msg)));
       sleeps := []; attempts := 1 |}.
Proof.
  intros Hraw Hlk Hs.
  apply (iteration_success api_errors f retries raw _ rest
           (session_get_only_error _ _ _ _ _ Hraw Hlk)).
  exact Hs.
Qed.

Lemma rule_outside_error_range_is_ignored_witness :
  retry_loop {[ 7 := mkRule "break" 302 ]} backoff_factor_0_09 0
    [error_response 7 "m"]
  = {| ended := Done (Ok (Some (set_status (error_response 7 "m") 302 (JStr "m"))));
       sleeps := []; attempts := 1 |}.
Proof.
  apply (rule_outside_error_range_is_ignored {[ 7 := mkRule "break" 302 ]}
           backoff_factor_0_09 0 (error_response 7 "m") [] 7 (JStr "m")
           (mkRule "break" 302)).
  - eexists. split; [reflexivity |]. split; reflexivity.
  - vm_compute. reflexivity.
  - unfold http_error. cbn. lia.
Defined.








(** * Further properties of the domain methods *)

Lemma exit_on_KeyError_raise (text : string) (m : result json) (e : exn) :
  exit_on_KeyError text m = Raise e ->
  e <> KeyError /\ (e = SystemExitMsg text \/ m = Raise e).
Proof.
  unfold exit_on_KeyError. destruct m as [v | e']; [discriminate |].
  destruct e'; intros [= <-]; split; auto; discriminate.
Qed.

(** X18.  On a response that [_retry_wrapper] returned, with the JSON body
    [j]: [execute] returns [j["response"]] whatever it is; [get_users_ids]
    returns the list of the [id] fields of the elements of [j["response"]];
    [get_friends] returns [j["response"]["items"]] when it has a length (a
    list, an object or a string), and when it has none (a number, a
    boolean, null) the [len] of the log line 129 raises a TypeError that
    the [except KeyError] does not catch. *)
Theorem domain_methods_on_success (api_errors : gmap Z ErrorRule)
    (transport : list response) (r : response) (j : json) :
  ended (_retry_wrapper api_errors backoff_factor_0_09 transport) = Done (Ok (Some r)) ->
  body r = Some j ->
  (forall v, getitem j "response" = Ok v ->
     execute api_errors transport = Done (Ok v)) /\
  (forall ids, users_ids j = Ok ids ->
     get_users_ids api_errors transport = Done (Ok (JArr ids))) /\
  (forall v n, get_path j ["response"; "items"] = Ok v -> len v = Ok n ->
     get_friends api_errors transport = Done (Ok v)) /\
  (forall v e, get_path j ["response"; "items"] = Ok v -> len v = Raise e ->
     get_friends api_errors transport = Done (Raise TypeError)).
Proof.
  intros Hrun Hb. unfold execute, get_users_ids, get_friends.
  rewrite !(domain_method_ended _ _ _ _ Hrun).
  unfold execute_after, get_users_ids_after, get_friends_after, r_json.
  rewrite Hb. cbn [bind]. repeat split.
  - intros v ->. reflexivity.
  - intros ids. unfold users_ids. intros H.
    apply bind_Ok in H as (friends & Hf & H).
    apply bind_Ok in H as (users & Hu & H).
    rewrite Hf. cbn [bind]. rewrite Hu. cbn [bind]. rewrite H. reflexivity.
  - intros v n H Hn. cbn [get_path] in H.
    apply bind_Ok in H as (resp & Hr & H).
    apply bind_Ok in H as (v' & Hv & H). injection H as ->.
    rewrite Hr. cbn [bind]. rewrite Hv. cbn [bind]. rewrite Hn. reflexivity.
  - intros v e H Hn. cbn [get_path] in H.
    apply bind_Ok in H as (resp & Hr & H).
    apply bind_Ok in H as (v' & Hv & H). injection H as ->.
    rewrite Hr. cbn [bind]. rewrite Hv. cbn [bind].
    destruct v; cbn [len] in Hn |- *; try discriminate; reflexivity.
Qed.

Lemma domain_methods_on_success_witness :
  get_friends table_all [friends_response [7; 8]] = Done (Ok (JArr [JNum 7; JNum 8])) /\
  get_friends table_all [http_200 (JObj [("response", JObj [("items", JNum 2)])])]
  = Done (Raise TypeError).
Proof.
  split.
  - apply (proj1 (proj2 (proj2 (domain_methods_on_success table_all
                    [friends_response [7; 8]] (friends_response [7; 8])
                    (JObj [("response", JObj [("count", JNum 2);
                                              ("items", JArr [JNum 7; JNum 8])])])
                    ltac:(vm_compute; reflexivity) eq_refl)))
             (JArr [JNum 7; JNum 8]) 2%nat); reflexivity.
  - apply (proj2 (proj2 (proj2 (domain_methods_on_success table_all
                    [http_200 (JObj [("response", JObj [("items", JNum 2)])])]
                    (http_200 (JObj [("response", JObj [("items", JNum 2)])]))
                    (JObj [("response", JObj [("items", JNum 2)])])
                    ltac:(vm_compute; reflexivity) eq_refl)))
             (JNum 2) TypeError); reflexivity.
Defined.

(** X19.  No KeyError leaves [get_users_ids] or [get_friends]: the loop
    raises none and the one of a missing key becomes SystemExit.  The
    handler converts nothing else: when the path is broken by a value that
    is not an object (for instance [response] is a list where
    [get_friends] expects an object), the TypeError leaves the method as it
    is, without the message. *)
Theorem shape_faults_of_the_methods (api_errors : gmap Z ErrorRule)
    (transport : list response) :
  (forall e, get_users_ids api_errors transport = Done (Raise e) -> e <> KeyError) /\
  (forall e, get_friends api_errors transport = Done (Raise e) -> e <> KeyError) /\
  (forall r j,
     ended (_retry_wrapper api_errors backoff_factor_0_09 transport)
     = Done (Ok (Some r)) ->
     body r = Some j ->
     (users_ids j = Raise TypeError ->
        get_users_ids api_errors transport = Done (Raise TypeError)) /\
     (get_path j ["response"; "items"] = Raise TypeError ->
        get_friends api_errors transport = Done (Raise TypeError))).
Proof.
  assert (Hgen : forall after,
             (forall r e, after r = Raise e -> e <> KeyError) ->
             forall e, domain_method after api_errors transport = Done (Raise e) ->
                       e <> KeyError).
  { intros after Hafter e. unfold domain_method, _retry_wrapper.
    destruct (ended (retry_loop api_errors backoff_factor_0_09 0 transport))
      as [[r | e'] | m] eqn:Hrun; [| | discriminate].
    - intros [= H]. eapply Hafter. exact H.
    - intros [= <-]. apply retry_loop_raise in Hrun. tauto. }
  split; [| split].
  - apply Hgen. intros [r |] e; cbn [get_users_ids_after]; [| discriminate].
    intros H. apply exit_on_KeyError_raise in H. tauto.
  - apply Hgen. intros [r |] e; cbn [get_friends_after]; [| discriminate].
    intros H. apply exit_on_KeyError_raise in H. tauto.
  - intros r j Hrun Hb. unfold get_users_ids, get_friends.
    rewrite !(domain_method_ended _ _ _ _ Hrun). split; intros H.
    + rewrite (get_users_ids_after_path _ _ _ Hb H). reflexivity.
    + rewrite (get_friends_after_path _ _ _ Hb H). reflexivity.
Qed.

Lemma shape_faults_of_the_methods_witness :
  SystemExitMsg "Unexpected keys in response. `response.items` are Expected"
  <> KeyError /\
  get_friends table_all [http_200 (JObj [("response", JArr [JNum 7])])]
  = Done (Raise TypeError).
Proof.
  split.
  - apply (proj1 (proj2 (shape_faults_of_the_methods table_all
                           [http_200 (JObj [("response", JObj [])])]))).
    vm_compute. reflexivity.
  - apply (proj2 (proj2 (proj2 (shape_faults_of_the_methods table_all
                           [http_200 (JObj [("response", JArr [JNum 7])])]))
                    (http_200 (JObj [("response", JArr [JNum 7])]))
                    (JObj [("response", JArr [JNum 7])])
                    ltac:(vm_compute; reflexivity) eq_refl)).
    reflexivity.
Defined.

(** * The request parameters *)

(** X20.  In [get_users_ids] and [get_friends] every keyword argument goes
    into the request and replaces the field of the same name, the access
    token, the API version and the user itself included; a field keeps the
    value that the method gives it only when no keyword argument has its
    name.  [execute] takes no keyword arguments: its request has exactly
    the four fields [access_token], [code], [func_v] and [v]. *)
Theorem kwargs_replace_the_fields (access_token : string)
    (screen_names : list string) (uid : Z) (kwargs : gmap string pyval) :
  let users := get_users_ids_params access_token screen_names kwargs in
  let friends := get_friends_params access_token uid kwargs in
  (forall k v, kwargs !! k = Some v -> users !! k = Some v /\ friends !! k = Some v) /\
  (kwargs !! "access_token" = None ->
     users !! "access_token" = Some (PStr access_token) /\
     friends !! "access_token" = Some (PStr access_token)) /\
  (kwargs !! "v" = None ->
     users !! "v" = Some (PStr "5.154") /\ friends !! "v" = Some (PStr "5.154")) /\
  (kwargs !! "user_ids" = None ->
     users !! "user_ids" = Some (PStr (join_names screen_names))) /\
  (kwargs !! "user_id" = None -> friends !! "user_id" = Some (PInt uid)) /\
  (forall code, dom (execute_params access_token code)
                = ({[ "access_token"; "code"; "func_v"; "v" ]} : gset string)).
Proof.
  cbv zeta. unfold get_users_ids_params, get_friends_params.
  split; [| split; [| split; [| split; [| split]]]].
  - intros k v Hk. split; apply lookup_union_Some_l; exact Hk.
  - intros Hk. rewrite !lookup_union_r by exact Hk. split; reflexivity.
  - intros Hk. rewrite !lookup_union_r by exact Hk. split; reflexivity.
  - intros Hk. rewrite lookup_union_r by exact Hk. reflexivity.
  - intros Hk. rewrite lookup_union_r by exact Hk. reflexivity.
  - intros code. unfold execute_params.
    rewrite !dom_insert_L, dom_singleton_L. set_solver.
Qed.

Lemma kwargs_replace_the_fields_witness :
  get_friends_params "token" 5 {[ "user_id" := PInt 9 ]} !! "user_id" = Some (PInt 9) /\
  get_friends_params "token" 5 {[ "count" := PInt 3 ]} !! "user_id" = Some (PInt 5).
Proof.
  split.
  - apply (proj1 (kwargs_replace_the_fields "token" [] 5 {[ "user_id" := PInt 9 ]})
             "user_id" (PInt 9)).
    vm_compute. reflexivity.
  - apply (proj1 (proj2 (proj2 (proj2 (proj2
             (kwargs_replace_the_fields "token" [] 5 {[ "count" := PInt 3 ]})))))).
    vm_compute. reflexivity.
Defined.

(** * A successful response of the wrong shape, method by method *)

(** C9 (the code departs from the claim).  The claim: each of the three
    domain methods answers a successful response without the expected
    field path with a response-shape fault that terminates the process.
    The code: on a JSON object without [response], [get_users_ids] and
    [get_friends] catch the KeyError and raise SystemExit with their
    message (and [get_friends] does so too when [response] has no
    [items]), while [execute], which has no [try], lets the bare KeyError
    of line 90 out: no SystemExit is raised, whatever the table. *)
Theorem C9_execute_lets_the_KeyError_out :
  forall api_errors : gmap Z ErrorRule,
    let raw := http_200 (JObj [("unexpected", JObj [])]) in
    _retry_wrapper api_errors backoff_factor_0_09 [raw]
    = {| ended := Done (Ok (Some raw)); sleeps := []; attempts := 1 |} /\
    execute api_errors [raw] = Done (Raise KeyError) /\
    get_users_ids api_errors [raw]
    = Done (Raise (SystemExitMsg
                     "Unexpected keys in response. `response` are Expected")) /\
    get_friends api_errors [raw]
    = Done (Raise (SystemExitMsg
                     "Unexpected keys in response. `response.items` are Expected")) /\
    get_friends api_errors [http_200 (JObj [("response", JObj [("count", JNum 0)])])]
    = Done (Raise (SystemExitMsg
                     "Unexpected keys in response. `response.items` are Expected")).
Proof. intros api_errors. cbv zeta. repeat split; reflexivity. Qed.

(** * The loop with the limits of the interpreter and of the transport *)













